(** * A shallow embedding of [music.py]: the command-line music player

    The player object ([MusicPlayer]) is a record of its attributes; its
    methods are computations in a small state-and-exception monad over the
    running program ([machine]): the player object, the calls issued to
    [pygame.mixer.music], and what was printed.  What the outside world
    answers is an argument of the method that asks for it: the reading of
    [time.time()] ([now]) and whether the mixer raises [pygame.error] inside
    the [try] block of [play] ([dev]).

    Python floats are IEEE 754 binary64 numbers: Rocq's primitive [float].
    The integer literal [0] that [__init__], [stop] and [get_elapsed_time]
    use where a float is expected is the float [0]: Python converts it before
    adding, and [0 == 0.0].

    [main] is a function of the keys [getch] returns, one turn of its loop
    for each; the calls it issues to the terminal are logged, and the key
    codes of [curses] and the range of the platform's [gmtime] are
    parameters ([App.platform]). *)

From Stdlib Require Import ZArith Zpower List String Ascii Bool Lia Floats.
Import ListNotations.

Set Warnings "-inexact-float".

(** ** Python values *)

Module Py.

(** The exceptions the embedded code can raise. *)
Inductive exn : Type :=
| ZeroDivisionError
| IndexError
| TypeError
| PygameError (msg : string).

(** [min(a, b)] and [max(a, b)] on two floats: the first argument is kept
    unless the second is strictly smaller (larger). *)
Definition min (a b : float) : float := if (b <? a)%float then b else a.
Definition max (a b : float) : float := if (a <? b)%float then b else a.

(** [a % n] on integers: the result has the sign of [n], as [Z.modulo];
    [n = 0] raises [ZeroDivisionError]. *)
Definition mod_ (a n : Z) : exn + Z :=
  if (n =? 0)%Z then inl ZeroDivisionError else inr (a mod n)%Z.

(** [l[i]]: a negative index counts from the end; out of range raises
    [IndexError]. *)
Definition getitem {A : Type} (l : list A) (i : Z) : exn + A :=
  let n := Z.of_nat (List.length l) in
  let j := if (i <? 0)%Z then (n + i)%Z else i in
  if ((0 <=? j) && (j <? n))%Z%bool then
    match nth_error l (Z.to_nat j) with
    | Some x => inr x
    | None => inl IndexError
    end
  else inl IndexError.

(** [s.endswith(suffix)]. *)
Definition endswith (s suffix : string) : bool :=
  let n := String.length s in
  let k := String.length suffix in
  (k <=? n)%nat && String.eqb (substring (n - k) k s) suffix.

(** [os.path.join(a, b)] for two components (POSIX). *)
Definition path_join (a b : string) : string :=
  if String.prefix "/" b then b
  else if (String.eqb a "" || endswith a "/")%bool then (a ++ b)%string
  else (a ++ "/" ++ b)%string.

End Py.

(** ** [class Song] *)

Module Song.
Record t : Type := init { name : string; path : string }.
End Song.

(** ** [class MusicLibrary] *)

Module MusicLibrary.

Record t : Type := Build { music_dir : string; songs : list Song.t }.

(** [_load_songs]: [listing] is what [os.listdir(self.music_dir)] returns
    (the empty list for a directory that had to be created). *)
Fixpoint _load_songs (music_dir : string) (listing : list string) : list Song.t :=
  match listing with
  | [] => []
  | file :: rest =>
      if Py.endswith file ".mp3"
      then Song.init file (Py.path_join music_dir file) :: _load_songs music_dir rest
      else _load_songs music_dir rest
  end.

Definition init (music_dir : string) (listing : list string) : t :=
  {| music_dir := music_dir; songs := _load_songs music_dir listing |}.

Definition get_songs (self : t) : list Song.t := songs self.

End MusicLibrary.

(** ** [class MusicPlayer] *)

Module MusicPlayer.

Record t : Type := Build {
  library : MusicLibrary.t;
  current_index : Z;
  playing : bool;
  volume : float;
  start_time : option float;
  elapsed_time : float
}.

Definition set_current_index (i : Z) (self : t) : t :=
  Build (library self) i (playing self) (volume self) (start_time self) (elapsed_time self).
Definition set_playing (b : bool) (self : t) : t :=
  Build (library self) (current_index self) b (volume self) (start_time self) (elapsed_time self).
Definition set_volume (v : float) (self : t) : t :=
  Build (library self) (current_index self) (playing self) v (start_time self) (elapsed_time self).
Definition set_start_time (s : option float) (self : t) : t :=
  Build (library self) (current_index self) (playing self) (volume self) s (elapsed_time self).
Definition set_elapsed_time (e : float) (self : t) : t :=
  Build (library self) (current_index self) (playing self) (volume self) (start_time self) e.

(** The calls the player issues to [pygame.mixer.music]. *)
Inductive mixer_call : Type :=
| MLoad (path : string)
| MSetVolume (v : float)
| MPlay
| MPause
| MUnpause
| MStop.

(** The running program: the player object, the mixer calls issued so far
    (oldest first) and the lines printed so far. *)
Record machine : Type := Machine {
  self : t;
  mixer : list mixer_call;
  stdout : list string
}.

(** Where, if anywhere, the mixer raises [pygame.error] inside the [try]
    block of [play], with the error's text. *)
Inductive mixer_stage : Type := AtLoad | AtSetVolume | AtPlay.
Inductive mixer_outcome : Type :=
| MixerOk
| MixerError (stage : mixer_stage) (msg : string).

Definition fails_at (dev : mixer_outcome) (s : mixer_stage) : option string :=
  match dev, s with
  | MixerError AtLoad msg, AtLoad => Some msg
  | MixerError AtSetVolume msg, AtSetVolume => Some msg
  | MixerError AtPlay msg, AtPlay => Some msg
  | _, _ => None
  end.

(** *** The monad of methods *)

Inductive result (A : Type) : Type :=
| Return (a : A)
| Raise (e : Py.exn).
Arguments Return {A} a.
Arguments Raise {A} e.

Definition M (A : Type) : Type := machine -> result A * machine.

Definition ret {A : Type} (a : A) : M A := fun m => (Return a, m).

Definition bind {A B : Type} (c : M A) (k : A -> M B) : M B :=
  fun m =>
    match c m with
    | (Return a, m') => k a m'
    | (Raise e, m') => (Raise e, m')
    end.

Declare Scope py_scope.
Delimit Scope py_scope with py.
Notation "x <- c ;; k" := (bind c (fun x => k))
  (at level 61, c at next level, right associativity) : py_scope.
Notation "c ;; k" := (bind c (fun _ => k))
  (at level 61, right associativity) : py_scope.
Local Open Scope py_scope.

Definition raise {A : Type} (e : Py.exn) : M A := fun m => (Raise e, m).

Definition lift {A : Type} (r : Py.exn + A) : M A :=
  match r with
  | inl e => raise e
  | inr a => ret a
  end.

(** [try: body except pygame.error as e: handler e]. *)
Definition try_except {A : Type} (body : M A) (handler : string -> M A) : M A :=
  fun m =>
    match body m with
    | (Raise (Py.PygameError e), m') => handler e m'
    | r => r
    end.

Definition get : M t := fun m => (Return (self m), m).

Definition modify (f : t -> t) : M unit :=
  fun m => (Return tt, Machine (f (self m)) (mixer m) (stdout m)).

(** A mixer call that cannot fail once the mixer is initialised. *)
Definition call (c : mixer_call) : M unit :=
  fun m => (Return tt, Machine (self m) (mixer m ++ [c]) (stdout m)).

(** A mixer call inside [play]'s [try] block: it is issued, and raises
    [pygame.error] when [dev] says so. *)
Definition call_at (dev : mixer_outcome) (s : mixer_stage) (c : mixer_call) : M unit :=
  call c ;;
  match fails_at dev s with
  | Some msg => raise (Py.PygameError msg)
  | None => ret tt
  end.

Definition print (line : string) : M unit :=
  fun m => (Return tt, Machine (self m) (mixer m) (stdout m ++ [line])).

(** *** The methods *)

(** [__init__]: [listing] is the content of the [music] directory. *)
Definition __init__ (listing : list string) : t :=
  {| library := MusicLibrary.init "music" listing;
     current_index := 0;
     playing := false;
     volume := 0.5;
     start_time := None;
     elapsed_time := 0 |}.

Definition start (listing : list string) : machine :=
  Machine (__init__ listing) [] [].

Definition play (index : option Z) (now : float) (dev : mixer_outcome) : M unit :=
  match index with
  | Some i => modify (set_current_index i)
  | None => ret tt
  end ;;
  s <- get ;;
  match MusicLibrary.songs (library s) with
  | [] => ret tt
  | _ :: _ =>
      song <- lift (Py.getitem (MusicLibrary.songs (library s)) (current_index s)) ;;
      try_except
        (call_at dev AtLoad (MLoad (Song.path song)) ;;
         call_at dev AtSetVolume (MSetVolume (volume s)) ;;
         call_at dev AtPlay MPlay ;;
         modify (set_start_time (Some now)) ;;
         modify (set_playing true))
        (fun e => print ("Erro ao carregar a música: " ++ e))
  end.

Definition pause (now : float) : M unit :=
  s <- get ;;
  if playing s then
    call MPause ;;
    match start_time s with
    | Some t0 => modify (set_elapsed_time (elapsed_time s + (now - t0))%float)
    | None => raise Py.TypeError
    end ;;
    modify (set_start_time None) ;;
    modify (set_playing false)
  else
    call MUnpause ;;
    modify (set_start_time (Some now)) ;;
    modify (set_playing true).

Definition stop : M unit :=
  call MStop ;;
  modify (set_elapsed_time 0%float) ;;
  modify (set_start_time None) ;;
  modify (set_playing false).

Definition next_song (now : float) (dev : mixer_outcome) : M unit :=
  stop ;;
  s <- get ;;
  i <- lift (Py.mod_ (current_index s + 1)
               (Z.of_nat (List.length (MusicLibrary.songs (library s))))) ;;
  modify (set_current_index i) ;;
  play None now dev.

Definition previous_song (now : float) (dev : mixer_outcome) : M unit :=
  stop ;;
  s <- get ;;
  i <- lift (Py.mod_ (current_index s - 1)
               (Z.of_nat (List.length (MusicLibrary.songs (library s))))) ;;
  modify (set_current_index i) ;;
  play None now dev.

Definition change_volume (increase : bool) : M unit :=
  s <- get ;;
  modify (set_volume (if increase then Py.min 1.0 (volume s + 0.1)%float
                      else Py.max 0.0 (volume s - 0.1)%float)) ;;
  s' <- get ;;
  call (MSetVolume (volume s')).

Definition get_elapsed_time (now : float) : M float :=
  s <- get ;;
  match start_time s with
  | None => ret (elapsed_time s)
  | Some t0 =>
      ret (elapsed_time s + (if playing s then now - t0 else 0))%float
  end.

End MusicPlayer.

(** ** Runs of the player *)

Module Run.
Import MusicPlayer.

(** One method call, with what the outside world answers to it. *)
Inductive command : Type :=
| Play (index : option Z) (now : float) (dev : mixer_outcome)
| Pause (now : float)
| Stop
| Next (now : float) (dev : mixer_outcome)
| Previous (now : float) (dev : mixer_outcome)
| ChangeVolume (increase : bool).

Definition exec (c : command) : M unit :=
  match c with
  | Play index now dev => play index now dev
  | Pause now => pause now
  | Stop => stop
  | Next now dev => next_song now dev
  | Previous now dev => previous_song now dev
  | ChangeVolume increase => change_volume increase
  end.

(** The machine after a sequence of calls; a caller that catches an exception
    goes on with the object as the raising method left it. *)
Fixpoint run (cs : list command) (m : machine) : machine :=
  match cs with
  | [] => m
  | c :: cs' => run cs' (snd (exec c m))
  end.

(** A sequence of calls that ends at the first uncaught exception. *)
Fixpoint seq (cs : list command) : M unit :=
  match cs with
  | [] => ret tt
  | c :: cs' => bind (exec c) (fun _ => seq cs')
  end.

(** [start_time] is set exactly when [playing] is true. *)
Definition coherent (s : t) : Prop :=
  start_time s <> None <-> playing s = true.

(** The state [__init__] and [stop] leave.  The code keeps no status besides
    the [playing] flag: this is what the spec's Stopped is read as. *)
Definition stopped (s : t) : Prop :=
  playing s = false /\ start_time s = None /\ elapsed_time s = 0%float.

Definition coherentb (s : t) : bool :=
  Bool.eqb (match start_time s with Some _ => true | None => false end) (playing s).

(** What [play] leaves in the player object: the selection, and on success
    the open interval and the flag. *)
Definition select (index : option Z) (s : t) : t :=
  match index with
  | Some i => set_current_index i s
  | None => s
  end.

(** The mixer calls [play] issues before [dev] stops it. *)
Definition issued (dev : mixer_outcome) (song : Song.t) (vol : float) : list mixer_call :=
  match dev with
  | MixerError AtLoad _ => [MLoad (Song.path song)]
  | MixerError AtSetVolume _ => [MLoad (Song.path song); MSetVolume vol]
  | _ => [MLoad (Song.path song); MSetVolume vol; MPlay]
  end.

Definition songs_of (m : machine) : list Song.t :=
  MusicLibrary.songs (library (self m)).

(** What [stop] leaves in the player object. *)
Definition halted (s : t) : t :=
  set_playing false (set_start_time None (set_elapsed_time 0 s)).

Definition after_stop (m : machine) : machine :=
  Machine (halted (self m)) (mixer m ++ [MStop]) (stdout m).

Definition catalog_size (m : machine) : Z :=
  Z.of_nat (List.length (songs_of m)).

(** [next_song] called once for each clock reading and mixer answer of
    [envs]. *)
Definition nexts (envs : list (float * mixer_outcome)) : list command :=
  map (fun e => Next (fst e) (snd e)) envs.

(** A volume within [0.0, 1.0], by the comparisons of floats. *)
Definition in_unit (v : float) : Prop :=
  (0 <=? v)%float = true /\ (v <=? 1)%float = true.

End Run.

(** ** Binary64 constants

    The floats the player compares with and adds, as [spec_float]s, and the
    last step of the format's rounding. *)

Module Binary64.

Local Open Scope Z_scope.

Definition zero_sf : spec_float := Eval cbv in Prim2SF 0%float.
Definition one_sf : spec_float := Eval cbv in Prim2SF 1%float.
Definition tenth_sf : spec_float := Eval cbv in Prim2SF 0.1%float.

(** The second half of [binary_round_aux] for a positive sign: the rounded
    mantissa is brought back into the format. *)
Definition finish (m1 e1 : Z) : spec_float :=
  let '(mrs, e) := shr_fexp 53 1024 m1 e1 loc_Exact in
  match shr_m mrs with
  | Z0 => S754_zero false
  | Zpos m => if e <=? 1024 - 53 then S754_finite false m e else S754_infinity false
  | Zneg _ => S754_nan
  end.

End Binary64.

(** ** Floats as integers, and [time]

    What [format_time] and [main] need of Python's conversions: a NaN raises
    [ValueError] and an infinity [OverflowError].  What the platform's
    [gmtime] refuses (a year that does not fit) is a parameter of the
    embedding. *)

Module PyFloat.

Local Open Scope Z_scope.

Inductive error : Type :=
| ValueError
| OverflowError
| OSError.

(** The largest integer not above [x], as [time.gmtime] takes its argument. *)
Definition floor (x : float) : error + Z :=
  match Prim2SF x with
  | S754_nan => inl ValueError
  | S754_infinity _ => inl OverflowError
  | S754_zero _ => inr 0
  | S754_finite s m e => inr (Z.shiftl (if s then Zneg m else Zpos m) e)
  end.

(** [int(x)]: the fraction is dropped, towards zero. *)
Definition int (x : float) : error + Z :=
  match Prim2SF x with
  | S754_nan => inl ValueError
  | S754_infinity _ => inl OverflowError
  | S754_zero _ => inr 0
  | S754_finite s m e =>
      let a := Z.shiftl (Zpos m) e in inr (if s then - a else a)
  end.

(** [s * n] on a string: [n] copies, none when [n <= 0]. *)
Fixpoint repeat (s : string) (n : nat) : string :=
  match n with
  | O => EmptyString
  | S n' => (s ++ repeat s n')%string
  end.

Definition str_mul (s : string) (n : Z) : string := repeat s (Z.to_nat n).

(** [ord(c)]. *)
Definition ord (c : ascii) : Z := Z.of_nat (nat_of_ascii c).

End PyFloat.

Module Time.

Local Open Scope Z_scope.

(** The fields of [struct_time] that [format_time] prints. *)
Record struct_time : Type := { tm_min : Z; tm_sec : Z }.

(** [time.gmtime(seconds)]: UTC has sixty-second minutes; [refuses] is the
    platform's answer for a number of seconds it cannot break down. *)
Definition gmtime (refuses : Z -> option PyFloat.error) (seconds : float)
  : PyFloat.error + struct_time :=
  match PyFloat.floor seconds with
  | inl e => inl e
  | inr n =>
      match refuses n with
      | Some e => inl e
      | None => inr {| tm_min := (n / 60) mod 60; tm_sec := n mod 60 |}
      end
  end.

Definition digit (d : Z) : ascii := ascii_of_nat (48 + Z.to_nat d).

(** A field printed by [%M] or [%S]: two decimal digits. *)
Definition two_digits (v : Z) : string :=
  String (digit (v / 10)) (String (digit (v mod 10)) EmptyString).

(** [time.strftime('%M:%S', tm)]. *)
Definition strftime_MS (tm : struct_time) : string :=
  (two_digits (tm_min tm) ++ ":" ++ two_digits (tm_sec tm))%string.

End Time.

(** ** [MusicPlayer.format_time] and [main] *)

Module App.
Import MusicPlayer.

Local Open Scope Z_scope.

(** What the source takes from [curses] and the C library: the codes of the
    arrow keys and the range of [gmtime]. *)
Record platform : Type := Platform {
  KEY_UP : Z;
  KEY_DOWN : Z;
  KEY_LEFT : Z;
  KEY_RIGHT : Z;
  gmtime_refuses : Z -> option PyFloat.error
}.

(** [MusicPlayer.format_time(seconds)]. *)
Definition format_time (p : platform) (seconds : float) : PyFloat.error + string :=
  match Time.gmtime (gmtime_refuses p) seconds with
  | inl e => inl e
  | inr tm => inr (Time.strftime_MS tm)
  end.

Inductive attr : Type := A_NORMAL | A_BOLD | A_REVERSE.

(** The calls [main] issues to the terminal ([curses], [stdscr]) and
    [time.sleep]; they are taken to succeed. *)
Inductive term_call : Type :=
| CursSet (visibility : Z)
| Nodelay (flag : bool)
| Timeout (delay : Z)
| Clear
| Addstr (y x : Z) (text : string) (a : attr)
| Refresh
| Sleep (secs : Z).

(** The running [main]: the player with its mixer and output, and the
    terminal calls issued so far (oldest first). *)
Record app : Type := Build_app {
  player : machine;
  screen : list term_call
}.

Inductive crash : Type :=
| PlayerError (e : Py.exn)
| ConversionError (e : PyFloat.error).

(** How [main] stands when the keys given to it are used up: it has
    returned, an exception has left it, or it is at the top of its loop with
    the selection [index]. *)
Inductive outcome : Type :=
| Returned (a : app)
| Crashed (e : crash) (a : app)
| Polling (index : Z) (a : app).

(** One turn of the loop as the outside world sees it: the clock when the
    frame is drawn, the key [getch] returns (-1 for none), and the clock and
    the mixer's answer for the method the key calls. *)
Record tick : Type := Tick {
  render_now : float;
  key : Z;
  now : float;
  dev : mixer_outcome
}.

Definition term (c : term_call) (a : app) : app :=
  Build_app (player a) (screen a ++ [c]).

Definition on_player (c : M unit) (a : app) : result unit * app :=
  let '(r, pm) := c (player a) in (r, Build_app pm (screen a)).

(** The [for i, song in enumerate(...)] loop of the frame. *)
Fixpoint draw_songs (i index : Z) (songs : list Song.t) (a : app) : app :=
  match songs with
  | [] => a
  | song :: rest =>
      draw_songs (i + 1) index rest
        (term (if i =? index
               then Addstr (4 + i) 2 ("> " ++ Song.name song) A_REVERSE
               else Addstr (4 + i) 2 ("  " ++ Song.name song) A_NORMAL) a)
  end.

(** The frame: everything from [stdscr.clear()] to [stdscr.refresh()]. *)
Definition render (p : platform) (index : Z) (t_now : float) (a : app)
  : option crash * app :=
  let a := term Clear a in
  let a := term (Addstr 0 2 "🎵 CLI Music Player 🎵" A_BOLD) a in
  let a := term (Addstr 2 2
    "Use ↑/↓ para navegar | Enter para tocar | Espaço para pausar | q para sair"
    A_NORMAL) a in
  let a := draw_songs 0 index (MusicLibrary.get_songs (library (self (player a)))) a in
  match get_elapsed_time t_now (player a) with
  | (Raise e, pm) => (Some (PlayerError e), Build_app pm (screen a))
  | (Return secs, pm) =>
      let a := Build_app pm (screen a) in
      match format_time p secs with
      | inl e => (Some (ConversionError e), a)
      | inr elapsed =>
          let a := term (Addstr 15 2
            ("Status: " ++ (if playing (self (player a))
                            then "▶ Tocando" else "⏸ Pausado")) A_NORMAL) a in
          match PyFloat.int (volume (self (player a)) * 10)%float with
          | inl e => (Some (ConversionError e), a)
          | inr n =>
              let a := term (Addstr 16 2 ("Volume: " ++ PyFloat.str_mul "█" n) A_NORMAL) a in
              let a := term (Addstr 17 2 ("Tempo: " ++ elapsed) A_NORMAL) a in
              (None, term Refresh a)
          end
      end
  end.

Inductive step : Type :=
| Continue (index : Z) (a : app)
| Done (o : outcome).

Definition continue (index : Z) (r : result unit * app) : step :=
  match r with
  | (Return _, a) => Continue index a
  | (Raise e, a) => Done (Crashed (PlayerError e) a)
  end.

(** The [if key == ... elif ...] chain. *)
Definition dispatch (p : platform) (t : tick) (index : Z) (a : app) : step :=
  let k := key t in
  if k =? PyFloat.ord "q" then
    match on_player stop a with
    | (Return _, a') => Done (Returned a')
    | (Raise e, a') => Done (Crashed (PlayerError e) a')
    end
  else if (k =? KEY_UP p) && (0 <? index) then Continue (index - 1) a
  else if (k =? KEY_DOWN p)
          && (index <? Z.of_nat (List.length (MusicLibrary.songs (library (self (player a))))) - 1)
       then Continue (index + 1) a
  else if k =? PyFloat.ord "010" then
    continue index (on_player (play (Some index) (now t) (dev t)) a)
  else if k =? PyFloat.ord " " then continue index (on_player (pause (now t)) a)
  else if k =? PyFloat.ord "+" then continue index (on_player (change_volume true) a)
  else if k =? PyFloat.ord "-" then continue index (on_player (change_volume false) a)
  else if k =? KEY_RIGHT p then continue index (on_player (next_song (now t) (dev t)) a)
  else if k =? KEY_LEFT p then continue index (on_player (previous_song (now t) (dev t)) a)
  else Continue index a.

(** [while True:], one turn for each [tick]. *)
Fixpoint loop (p : platform) (ticks : list tick) (index : Z) (a : app) : outcome :=
  match ticks with
  | [] => Polling index a
  | t :: rest =>
      match render p index (render_now t) a with
      | (Some e, a1) => Crashed e a1
      | (None, a1) =>
          match dispatch p t index a1 with
          | Continue index' a2 => loop p rest index' a2
          | Done o => o
          end
      end
  end.

(** [main(stdscr)]: [listing] is the content of the [music] directory,
    [boot_now] and [boot_dev] answer the first [player.play(index)]. *)
Definition main (p : platform) (listing : list string)
    (boot_now : float) (boot_dev : mixer_outcome) (ticks : list tick) : outcome :=
  let a := Build_app (start listing) [] in
  match MusicLibrary.songs (library (self (player a))) with
  | [] =>
      let a := term (Addstr 0 0
        "Nenhuma música encontrada! Adicione arquivos MP3 na pasta 'music'."
        A_NORMAL) a in
      let a := term Refresh a in
      let a := term (Sleep 3) a in
      Returned a
  | _ :: _ =>
      let a := term (CursSet 0) a in
      let a := term (Nodelay true) a in
      let a := term (Timeout 100) a in
      match on_player (play (Some 0) boot_now boot_dev) a with
      | (Raise e, a') => Crashed (PlayerError e) a'
      | (Return _, a') => loop p ticks 0 a'
      end
  end.

(** The key codes of ncurses and the range of glibc's [gmtime] on 64-bit
    Linux. *)
Definition linux : platform :=
  {| KEY_UP := 259; KEY_DOWN := 258; KEY_LEFT := 260; KEY_RIGHT := 261;
     gmtime_refuses := fun n =>
       if (n <? - 2 ^ 63) || (2 ^ 63 <=? n) then Some PyFloat.OverflowError
       else if (n <? -67768040609740800) || (67767976233532799 <? n)
            then Some PyFloat.OSError
            else None |}.

End App.

(** ** Invariants of runs *)

Module Inv.
Import MusicPlayer Run.

(** The [set_volume] calls of a mixer log all carry a volume within
    [0.0, 1.0]. *)
Definition volumes_in_unit (log : list mixer_call) : Prop :=
  Forall (fun c => match c with MSetVolume v => in_unit v | _ => True end) log.

(** What the loop of [main] keeps: the library it started with, non-empty,
    a selection within it, and a coherent player. *)
Definition selecting (lib : MusicLibrary.t) (index : Z) (a : App.app) : Prop :=
  library (self (App.player a)) = lib /\
  MusicLibrary.songs lib <> [] /\
  (0 <= index < Z.of_nat (List.length (MusicLibrary.songs lib)))%Z /\
  coherent (self (App.player a)).

(** How [player.stop()] on [q] leaves [main]. *)
Definition quit_state (a : App.app) : Prop :=
  stopped (self (App.player a)) /\
  exists log, mixer (App.player a) = log ++ [MStop].

Definition safe (lib : MusicLibrary.t) (o : App.outcome) : Prop :=
  match o with
  | App.Returned a => quit_state a
  | App.Crashed (App.PlayerError _) _ => False
  | App.Crashed (App.ConversionError _) _ => True
  | App.Polling index a => selecting lib index a
  end.



End Inv.

Import MusicPlayer Run Binary64 Inv.

(** * Properties *)

Ltac unfold_methods :=
  cbv [exec play pause stop next_song previous_song change_volume
       get_elapsed_time bind ret raise lift try_except get modify call call_at
       print fails_at self mixer stdout
       set_current_index set_playing set_volume set_start_time set_elapsed_time
       library current_index playing volume start_time elapsed_time].

Lemma coherent_iff (s : t) : coherent s <-> coherentb s = true.
Proof.
  unfold coherent, coherentb.
  destruct (start_time s), (playing s); cbn; intuition congruence.
Qed.

Lemma getitem_nil {A : Type} (i : Z) : @Py.getitem A [] i = inl Py.IndexError.
Proof.
  unfold Py.getitem. cbn [List.length Z.of_nat].
  destruct (_ && _)%bool eqn:E; [|reflexivity].
  apply andb_prop in E as [E1 E2].
  apply Z.leb_le in E1. apply Z.ltb_lt in E2. lia.
Qed.

Section MethodEquations.

Variables (now : float) (m : machine).

Lemma stop_eq :
  stop m =
  (Return tt,
   Machine (set_playing false (set_start_time None (set_elapsed_time 0 (self m))))
           (mixer m ++ [MStop]) (stdout m)).
Proof. reflexivity. Qed.

Lemma pause_playing_eq (t0 : float) :
  playing (self m) = true -> start_time (self m) = Some t0 ->
  pause now m =
  (Return tt,
   Machine (set_playing false (set_start_time None
              (set_elapsed_time (elapsed_time (self m) + (now - t0)) (self m))))
           (mixer m ++ [MPause]) (stdout m)).
Proof.
  destruct m as [[lib ci pl vol st el] mx out]; cbn [self playing start_time].
  intros -> ->. reflexivity.
Qed.

Lemma pause_not_playing_eq :
  playing (self m) = false ->
  pause now m =
  (Return tt,
   Machine (set_playing true (set_start_time (Some now) (self m)))
           (mixer m ++ [MUnpause]) (stdout m)).
Proof.
  destruct m as [[lib ci pl vol st el] mx out]; cbn [self playing].
  intros ->. reflexivity.
Qed.

Variables (index : option Z) (dev : mixer_outcome).

Lemma play_empty_eq :
  songs_of m = [] ->
  play index now dev m =
  (Return tt, Machine (select index (self m)) (mixer m) (stdout m)).
Proof.
  destruct m as [[[dir sgs] ci pl vol st el] mx out]; cbn.
  intros ->. destruct index; reflexivity.
Qed.

Lemma play_index_error_eq (e : Py.exn) :
  songs_of m <> [] ->
  Py.getitem (songs_of m) (current_index (select index (self m))) = inl e ->
  play index now dev m =
  (Raise e, Machine (select index (self m)) (mixer m) (stdout m)).
Proof.
  destruct m as [[[dir sgs] ci pl vol st el] mx out].
  destruct sgs as [|sg sgs]; [intros H; exfalso; apply H; reflexivity|].
  intros _ H. destruct index as [i|];
    unfold_methods; cbv [select snd fst MusicLibrary.songs songs_of] in *;
    cbn in H; rewrite H; reflexivity.
Qed.

Lemma play_ok_eq (song : Song.t) :
  Py.getitem (songs_of m) (current_index (select index (self m))) = inr song ->
  play index now MixerOk m =
  (Return tt,
   Machine (set_playing true (set_start_time (Some now) (select index (self m))))
           (mixer m ++ issued MixerOk song (volume (self m))) (stdout m)).
Proof.
  destruct m as [[[dir sgs] ci pl vol st el] mx out].
  destruct sgs as [|sg sgs].
  - cbv [songs_of self library MusicLibrary.songs].
    rewrite getitem_nil. discriminate.
  - intros H. destruct index as [i|];
      unfold_methods; cbv [select snd fst MusicLibrary.songs songs_of] in *;
      cbn in H; rewrite H; cbv [issued]; rewrite <- ?app_assoc; reflexivity.
Qed.

Lemma play_error_eq (song : Song.t) (stage : mixer_stage) (msg : string) :
  Py.getitem (songs_of m) (current_index (select index (self m))) = inr song ->
  play index now (MixerError stage msg) m =
  (Return tt,
   Machine (select index (self m))
           (mixer m ++ issued (MixerError stage msg) song (volume (self m)))
           (stdout m ++ [("Erro ao carregar a música: " ++ msg)%string])).
Proof.
  destruct m as [[[dir sgs] ci pl vol st el] mx out].
  destruct sgs as [|sg sgs].
  - cbv [songs_of self library MusicLibrary.songs].
    rewrite getitem_nil. discriminate.
  - intros H. destruct index as [i|], stage;
      unfold_methods; cbv [select snd fst MusicLibrary.songs songs_of] in *;
      cbn in H; rewrite H; cbv [issued]; rewrite <- ?app_assoc; reflexivity.
Qed.

End MethodEquations.

Lemma play_self (index : option Z) (now : float) (dev : mixer_outcome) (m : machine) :
  let s := select index (self m) in
  let m' := snd (play index now dev m) in
  self m' = s \/ self m' = set_playing true (set_start_time (Some now) s).
Proof.
  cbv zeta.
  destruct (songs_of m) as [|sg sgs] eqn:E.
  - rewrite play_empty_eq by exact E. left; reflexivity.
  - destruct (Py.getitem (songs_of m) (current_index (select index (self m))))
      as [e|song] eqn:G.
    + rewrite (play_index_error_eq now m index dev e) by congruence. left; reflexivity.
    + destruct dev as [|stage msg].
      * rewrite (play_ok_eq now m index song G). right; reflexivity.
      * rewrite (play_error_eq now m index song stage msg G). left; reflexivity.
Qed.

Section NavigationEquations.

Variables (now : float) (dev : mixer_outcome) (m : machine).

Lemma next_song_empty_eq :
  songs_of m = [] ->
  next_song now dev m = (Raise Py.ZeroDivisionError, after_stop m).
Proof.
  destruct m as [[[dir sgs] ci pl vol st el] mx out]; cbn.
  intros ->. reflexivity.
Qed.

Lemma previous_song_empty_eq :
  songs_of m = [] ->
  previous_song now dev m = (Raise Py.ZeroDivisionError, after_stop m).
Proof.
  destruct m as [[[dir sgs] ci pl vol st el] mx out]; cbn.
  intros ->. reflexivity.
Qed.

Lemma next_song_eq :
  songs_of m <> [] ->
  next_song now dev m =
  play None now dev
    (Machine (set_current_index ((current_index (self m) + 1) mod catalog_size m)
                (halted (self m)))
             (mixer m ++ [MStop]) (stdout m)).
Proof.
  destruct m as [[[dir sgs] ci pl vol st el] mx out].
  destruct sgs as [|sg sgs]; [intros H; exfalso; apply H; reflexivity|].
  intros _. reflexivity.
Qed.

Lemma previous_song_eq :
  songs_of m <> [] ->
  previous_song now dev m =
  play None now dev
    (Machine (set_current_index ((current_index (self m) - 1) mod catalog_size m)
                (halted (self m)))
             (mixer m ++ [MStop]) (stdout m)).
Proof.
  destruct m as [[[dir sgs] ci pl vol st el] mx out].
  destruct sgs as [|sg sgs]; [intros H; exfalso; apply H; reflexivity|].
  intros _. reflexivity.
Qed.

End NavigationEquations.

Lemma change_volume_eq (increase : bool) (m : machine) :
  let v := if increase then Py.min 1.0 (volume (self m) + 0.1)%float
           else Py.max 0.0 (volume (self m) - 0.1)%float in
  change_volume increase m =
  (Return tt, Machine (set_volume v (self m)) (mixer m ++ [MSetVolume v]) (stdout m)).
Proof. reflexivity. Qed.

(** ** Coherence of [start_time] and [playing] *)

Lemma coherent_select (index : option Z) (s : t) :
  coherent s -> coherent (select index s).
Proof. destruct index; exact (fun H => H). Qed.

Lemma coherent_started (now : float) (s : t) :
  coherent (set_playing true (set_start_time (Some now) s)).
Proof. apply coherent_iff. reflexivity. Qed.

Lemma coherent_halted (s : t) : coherent (halted s).
Proof. apply coherent_iff. reflexivity. Qed.

Lemma play_coherent (index : option Z) (now : float) (dev : mixer_outcome) (m : machine) :
  coherent (self m) -> coherent (self (snd (play index now dev m))).
Proof.
  intros H.
  destruct (play_self index now dev m) as [E|E]; rewrite E.
  - apply coherent_select, H.
  - apply coherent_started.
Qed.

(** Every method maps a coherent player to a coherent player, whatever the
    clock and the mixer answer, raising or not. *)
Lemma exec_coherent (c : command) (m : machine) :
  coherent (self m) -> coherent (self (snd (exec c m))).
Proof.
  intros H.
  destruct c as [index now dev | now | | now dev | now dev | increase]; cbn [exec].
  - apply play_coherent, H.
  - destruct (playing (self m)) eqn:P.
    + destruct (start_time (self m)) as [t0|] eqn:S.
      * rewrite (pause_playing_eq now m t0 P S). apply coherent_iff. reflexivity.
      * exfalso. apply H in P. apply P, S.
    + rewrite (pause_not_playing_eq now m P). apply coherent_started.
  - rewrite stop_eq. apply coherent_halted.
  - destruct (songs_of m) as [|sg sgs] eqn:E.
    + rewrite next_song_empty_eq by exact E. apply coherent_halted.
    + rewrite next_song_eq by congruence.
      apply play_coherent. apply coherent_iff. reflexivity.
  - destruct (songs_of m) as [|sg sgs] eqn:E.
    + rewrite previous_song_empty_eq by exact E. apply coherent_halted.
    + rewrite previous_song_eq by congruence.
      apply play_coherent. apply coherent_iff. reflexivity.
  - rewrite change_volume_eq. apply coherent_iff. apply coherent_iff in H. exact H.
Qed.

Lemma run_coherent (cs : list command) :
  forall m, coherent (self m) -> coherent (self (run cs m)).
Proof.
  induction cs as [|c cs IH]; intros m H; cbn [run].
  - exact H.
  - apply IH, exec_coherent, H.
Qed.

Lemma start_coherent (listing : list string) : coherent (self (start listing)).
Proof. apply coherent_iff. reflexivity. Qed.

(** ** Navigation *)

Lemma getitem_in_range {A : Type} (l : list A) (i : Z) :
  (0 <= i < Z.of_nat (List.length l))%Z -> exists x, Py.getitem l i = inr x.
Proof.
  intros [H0 H1]. unfold Py.getitem.
  replace (i <? 0)%Z with false by (symmetry; apply Z.ltb_ge; exact H0).
  replace (0 <=? i)%Z with true by (symmetry; apply Z.leb_le; exact H0).
  replace (i <? Z.of_nat (List.length l))%Z with true
    by (symmetry; apply Z.ltb_lt; exact H1).
  cbn [andb].
  destruct (nth_error l (Z.to_nat i)) as [x|] eqn:E.
  - exists x; reflexivity.
  - apply nth_error_None in E. lia.
Qed.

Lemma catalog_size_pos (m : machine) : songs_of m <> [] -> (0 < catalog_size m)%Z.
Proof.
  unfold catalog_size. destruct (songs_of m); [congruence|]. cbn [List.length]. lia.
Qed.

(** [play()] on a player whose index is within the catalog raises nothing and
    keeps the index and the library, whatever the mixer does. *)
Lemma play_None_in_range (now : float) (dev : mixer_outcome) (m : machine) :
  (0 <= current_index (self m) < catalog_size m)%Z ->
  let r := play None now dev m in
  fst r = Return tt /\
  current_index (self (snd r)) = current_index (self m) /\
  library (self (snd r)) = library (self m).
Proof.
  intros H r. subst r.
  destruct (getitem_in_range (songs_of m) (current_index (self m)) H) as [song G].
  destruct dev as [|stage msg].
  - rewrite (play_ok_eq now m None song G). repeat split.
  - rewrite (play_error_eq now m None song stage msg G). repeat split.
Qed.

Section Step.

Variables (now : float) (dev : mixer_outcome) (m : machine).
Hypothesis nonempty : songs_of m <> [].

Lemma next_song_step :
  let r := next_song now dev m in
  fst r = Return tt /\
  current_index (self (snd r)) = ((current_index (self m) + 1) mod catalog_size m)%Z /\
  library (self (snd r)) = library (self m).
Proof.
  cbv zeta. rewrite next_song_eq by exact nonempty.
  set (i := ((current_index (self m) + 1) mod catalog_size m)%Z).
  set (m1 := Machine (set_current_index i (halted (self m))) (mixer m ++ [MStop]) (stdout m)).
  destruct (play_None_in_range now dev m1) as (Hr & Hi & Hl).
  - apply Z.mod_pos_bound, catalog_size_pos, nonempty.
  - repeat split; assumption.
Qed.

Lemma previous_song_step :
  let r := previous_song now dev m in
  fst r = Return tt /\
  current_index (self (snd r)) = ((current_index (self m) - 1) mod catalog_size m)%Z /\
  library (self (snd r)) = library (self m).
Proof.
  cbv zeta. rewrite previous_song_eq by exact nonempty.
  set (i := ((current_index (self m) - 1) mod catalog_size m)%Z).
  set (m1 := Machine (set_current_index i (halted (self m))) (mixer m ++ [MStop]) (stdout m)).
  destruct (play_None_in_range now dev m1) as (Hr & Hi & Hl).
  - apply Z.mod_pos_bound, catalog_size_pos, nonempty.
  - repeat split; assumption.
Qed.

End Step.

Lemma seq_nexts (envs : list (float * mixer_outcome)) :
  forall m : machine,
    songs_of m <> [] ->
    (0 <= current_index (self m) < catalog_size m)%Z ->
    let r := seq (nexts envs) m in
    fst r = Return tt /\
    current_index (self (snd r)) =
      ((current_index (self m) + Z.of_nat (List.length envs)) mod catalog_size m)%Z.
Proof.
  induction envs as [|[now dev] envs IH]; intros m Hne Hin; cbv zeta.
  - cbn. split; [reflexivity|].
    rewrite Z.add_0_r, Z.mod_small by exact Hin. reflexivity.
  - cbn [nexts map seq exec fst snd]. fold (nexts envs). unfold bind.
    destruct (next_song_step now dev m Hne) as (Hr & Hi & Hl).
    destruct (next_song now dev m) as [r m1]. cbn [fst snd] in Hr, Hi, Hl.
    subst r.
    assert (Hsongs : songs_of m1 = songs_of m) by (unfold songs_of; rewrite Hl; reflexivity).
    assert (Hsize : catalog_size m1 = catalog_size m) by (unfold catalog_size; rewrite Hsongs; reflexivity).
    assert (Hpos := catalog_size_pos m Hne).
    destruct (IH m1) as [Hr' Hi'].
    + rewrite Hsongs. exact Hne.
    + rewrite Hi, Hsize. apply Z.mod_pos_bound, Hpos.
    + split; [exact Hr'|].
      rewrite Hi', Hi, Hsize. cbn [List.length].
      rewrite Zplus_mod_idemp_l. f_equal. lia.
Qed.

(** ** Rounding in binary64

    What the volume bounds need of IEEE 754 addition and subtraction, from
    the Standard Library's specification of the primitive floats. *)

Section Rounding.

Local Open Scope Z_scope.

Lemma digits2_pos_bounds (p : positive) :
  2 ^ (Zpos (digits2_pos p) - 1) <= Zpos p < 2 ^ Zpos (digits2_pos p).
Proof.
  induction p as [p IH|p IH|]; cbn [digits2_pos].
  - rewrite Pos2Z.inj_succ. change (Zpos p~1) with (2 * Zpos p + 1).
    replace (Z.succ (Zpos (digits2_pos p)) - 1) with (Z.succ (Zpos (digits2_pos p) - 1)) by lia.
    rewrite !Z.pow_succ_r by lia.
    revert IH. generalize (2 ^ (Zpos (digits2_pos p) - 1)) (2 ^ Zpos (digits2_pos p)).
    intros; lia.
  - rewrite Pos2Z.inj_succ. change (Zpos p~0) with (2 * Zpos p).
    replace (Z.succ (Zpos (digits2_pos p)) - 1) with (Z.succ (Zpos (digits2_pos p) - 1)) by lia.
    rewrite !Z.pow_succ_r by lia.
    revert IH. generalize (2 ^ (Zpos (digits2_pos p) - 1)) (2 ^ Zpos (digits2_pos p)).
    intros; lia.
  - cbn. lia.
Qed.

Lemma digits2_pos_le (p : positive) (k : Z) :
  0 <= k -> Zpos p < 2 ^ k -> Zpos (digits2_pos p) <= k.
Proof.
  intros Hk Hp.
  destruct (Z.le_gt_cases (Zpos (digits2_pos p)) k) as [H|H]; [exact H|].
  destruct (digits2_pos_bounds p) as [Hl _].
  assert (2 ^ k <= 2 ^ (Zpos (digits2_pos p) - 1)) by (apply Z.pow_le_mono_r; lia).
  lia.
Qed.

Lemma shr_1_m (mrs : shr_record) :
  0 <= shr_m mrs -> shr_m (shr_1 mrs) = shr_m mrs / 2.
Proof.
  destruct mrs as [m r s]; cbn [shr_m shr_1]. intros H.
  destruct m as [|[p|p|]|p]; cbn [shr_m]; try lia.
  - reflexivity.
  - change (Zpos p~1) with (2 * Zpos p + 1). symmetry.
    rewrite (Z.mul_comm 2). rewrite Z.div_add_l by lia. reflexivity.
  - change (Zpos p~0) with (2 * Zpos p). symmetry. rewrite (Z.mul_comm 2). apply Z.div_mul. lia.
  - reflexivity.
Qed.

Lemma iter_shr_1_m (n : positive) :
  forall mrs : shr_record,
    0 <= shr_m mrs -> shr_m (iter_pos shr_1 n mrs) = shr_m mrs / 2 ^ Zpos n.
Proof.
  induction n as [n IH|n IH|]; intros mrs H; cbn [iter_pos].
  - assert (H1 : 0 <= shr_m (shr_1 mrs)) by (rewrite shr_1_m by exact H; apply Z.div_pos; lia).
    assert (H2 : 0 <= shr_m (iter_pos shr_1 n (shr_1 mrs)))
      by (rewrite IH by exact H1; apply Z.div_pos; [exact H1|apply Z.pow_pos_nonneg; lia]).
    rewrite IH by exact H2. rewrite IH by exact H1. rewrite shr_1_m by exact H.
    rewrite !Z.div_div by (try apply Z.pow_pos_nonneg; lia).
    f_equal. change (Zpos n~1) with (2 * Zpos n + 1).
    replace (2 * Zpos n + 1) with (1 + Zpos n + Zpos n) by lia.
    rewrite !Z.pow_add_r by lia. rewrite Z.pow_1_r. ring.
  - assert (H2 : 0 <= shr_m (iter_pos shr_1 n mrs))
      by (rewrite IH by exact H; apply Z.div_pos; [exact H|apply Z.pow_pos_nonneg; lia]).
    rewrite IH by exact H2. rewrite IH by exact H.
    rewrite !Z.div_div by (try apply Z.pow_pos_nonneg; lia).
    f_equal. change (Zpos n~0) with (2 * Zpos n).
    replace (2 * Zpos n) with (Zpos n + Zpos n) by lia.
    rewrite !Z.pow_add_r by lia. ring.
  - rewrite shr_1_m by exact H. reflexivity.
Qed.

Lemma shr_record_of_loc_m (m : Z) (l : location) : shr_m (shr_record_of_loc m l) = m.
Proof. destruct l as [|[| |]]; reflexivity. Qed.

(** The mantissa [shr] leaves and the exponent it returns. *)
Lemma shr_spec (mrs : shr_record) (e n : Z) :
  0 <= shr_m mrs -> 0 <= n ->
  shr_m (fst (shr mrs e n)) = shr_m mrs / 2 ^ n /\ snd (shr mrs e n) = e + n.
Proof.
  intros Hm Hn. destruct n as [|k|k]; cbn [shr fst snd]; try lia.
  - rewrite Z.pow_0_r, Z.div_1_r. lia.
  - rewrite iter_shr_1_m by exact Hm. lia.
Qed.

Lemma shr_nop (mrs : shr_record) (e n : Z) : n <= 0 -> shr mrs e n = (mrs, e).
Proof. destruct n; [reflexivity|lia|reflexivity]. Qed.

Lemma round_nearest_even_bounds (m : Z) (l : location) :
  m <= round_nearest_even m l <= m + 1.
Proof.
  destruct l as [|[| |]]; cbn [round_nearest_even]; try lia.
  destruct (Z.even m); lia.
Qed.

Lemma fexp_eq (x : Z) : fexp 53 1024 x = Z.max (x - 53) (-1074).
Proof. reflexivity. Qed.

Lemma finite_le_one (q : positive) (e : Z) :
  e < -52 -> SFleb (S754_finite false q e) one_sf = true.
Proof.
  intros H. unfold SFleb, SFcompare, one_sf.
  rewrite (proj2 (Z.compare_lt_iff e (-52)) H). reflexivity.
Qed.

Lemma finish_le_one (m1 fe : Z) :
  -1074 <= fe <= -53 -> 0 <= m1 <= 2 ^ 53 ->
  SFleb (finish m1 fe) one_sf = true.
Proof.
  intros Hfe Hm. unfold finish, shr_fexp. rewrite fexp_eq.
  destruct m1 as [|q|q]; [| |lia].
  - cbn [Zdigits2]. rewrite shr_nop by lia. reflexivity.
  - cbn [Zdigits2].
    destruct (Z.le_gt_cases (Zpos (digits2_pos q)) 53) as [Hd|Hd].
    + rewrite shr_nop by lia. cbn [shr_record_of_loc shr_m].
      replace (fe <=? 1024 - 53) with true by (symmetry; apply Z.leb_le; lia).
      apply finite_le_one. lia.
    + assert (Hq : q = 9007199254740992%positive).
      { destruct (digits2_pos_bounds q) as [Hl _].
        assert (2 ^ 53 <= 2 ^ (Zpos (digits2_pos q) - 1)) by (apply Z.pow_le_mono_r; lia).
        change (2 ^ 53) with 9007199254740992 in *. lia. }
      subst q.
      change (Zpos (digits2_pos 9007199254740992)) with 54.
      replace (Z.max (54 + fe - 53) (-1074) - fe) with 1 by lia.
      cbn [shr iter_pos shr_1 shr_record_of_loc shr_m orb].
      replace (fe + 1 <=? 1024 - 53) with true by (symmetry; apply Z.leb_le; lia).
      unfold SFleb, SFcompare, one_sf.
      destruct (Z.compare_spec (fe + 1) (-52)) as [E|E|E]; [reflexivity|reflexivity|lia].
Qed.

Lemma binary_round_aux_finish (mx ex : Z) (lx : location) :
  binary_round_aux 53 1024 false mx ex lx =
  finish (round_nearest_even (shr_m (fst (shr_fexp 53 1024 mx ex lx)))
            (loc_of_shr_record (fst (shr_fexp 53 1024 mx ex lx))))
         (snd (shr_fexp 53 1024 mx ex lx)).
Proof.
  unfold binary_round_aux, finish.
  destruct (shr_fexp 53 1024 mx ex lx) as [mrs' e']. reflexivity.
Qed.

(** Rounding a positive number below 1 gives at most 1. *)
Lemma binary_round_aux_le_one (mz : positive) (e1 : Z) :
  Zpos (digits2_pos mz) + e1 <= 0 ->
  e1 <= fexp 53 1024 (Zpos (digits2_pos mz) + e1) ->
  SFleb (binary_round_aux 53 1024 false (Zpos mz) e1 loc_Exact) one_sf = true.
Proof.
  intros Hd He. rewrite binary_round_aux_finish.
  unfold shr_fexp at 1 2 3. cbn [Zdigits2 shr_record_of_loc].
  set (fe := fexp 53 1024 (Zpos (digits2_pos mz) + e1)) in *.
  assert (Hfe : fe = Z.max (Zpos (digits2_pos mz) + e1 - 53) (-1074)) by apply fexp_eq.
  destruct (shr_spec (Build_shr_record (Zpos mz) false false) e1 (fe - e1)) as [Hm Hs];
    [cbn; lia | lia |].
  destruct (shr _ e1 (fe - e1)) as [mrs' e']. cbn [fst snd] in *.
  cbn [shr_m] in Hm.
  assert (Hlt : shr_m mrs' < 2 ^ 53).
  { rewrite Hm. apply Z.div_lt_upper_bound; [apply Z.pow_pos_nonneg; lia|].
    rewrite <- Z.pow_add_r by lia.
    destruct (digits2_pos_bounds mz) as [_ Hu].
    apply Z.lt_le_trans with (1 := Hu). apply Z.pow_le_mono_r; lia. }
  assert (Hge : 0 <= shr_m mrs').
  { rewrite Hm. apply Z.div_pos; [lia|apply Z.pow_pos_nonneg; lia]. }
  pose proof (round_nearest_even_bounds (shr_m mrs') (loc_of_shr_record mrs')) as Hr.
  apply finish_le_one; lia.
Qed.

Lemma digits2_pos_shift (k p : positive) :
  digits2_pos (shift_pos k p) = (digits2_pos p + k)%positive.
Proof.
  unfold shift_pos. revert p.
  induction k as [k IH|k IH|]; intros p; cbn [Pos.iter digits2_pos].
  - rewrite !IH. lia.
  - rewrite !IH. lia.
  - lia.
Qed.

Lemma binary_round_le_one (p : positive) (ez : Z) :
  Zpos (digits2_pos p) + ez <= 0 ->
  SFleb (binary_round 53 1024 false p ez) one_sf = true.
Proof.
  intros Hd. unfold binary_round, shl_align.
  set (fe := fexp 53 1024 (Zpos (digits2_pos p) + ez)).
  destruct (fe - ez) as [|k|k] eqn:E.
  - apply binary_round_aux_le_one; [exact Hd|]. fold fe. lia.
  - apply binary_round_aux_le_one; [exact Hd|]. fold fe. lia.
  - fold (shift_pos k p).
    apply binary_round_aux_le_one; rewrite digits2_pos_shift, Pos2Z.inj_add;
      replace (Zpos (digits2_pos p) + Zpos k + fe) with (Zpos (digits2_pos p) + ez) by lia.
    + exact Hd.
    + fold fe. lia.
Qed.

(** *** Signs *)

Lemma shr_m_nonneg (mrs : shr_record) (e n : Z) :
  0 <= shr_m mrs -> 0 <= shr_m (fst (shr mrs e n)).
Proof.
  intros H. destruct n as [|k|k]; cbn [shr fst]; try exact H.
  rewrite iter_shr_1_m by exact H.
  apply Z.div_pos; [exact H|apply Z.pow_pos_nonneg; lia].
Qed.

Lemma finish_nonneg (m1 e1 : Z) :
  0 <= m1 -> SFleb zero_sf (finish m1 e1) = true.
Proof.
  intros H. unfold finish, shr_fexp.
  pose proof (shr_m_nonneg (shr_record_of_loc m1 loc_Exact) e1
                (fexp 53 1024 (Zdigits2 m1 + e1) - e1)) as Hn.
  destruct (shr _ e1 _) as [mrs e]. cbn [fst] in Hn.
  destruct (shr_m mrs) as [|q|q].
  - reflexivity.
  - destruct (e <=? 1024 - 53); reflexivity.
  - cbn [shr_m shr_record_of_loc] in Hn. lia.
Qed.

(** Rounding a non-negative number gives a non-negative float. *)
Lemma binary_round_aux_nonneg (mx ex : Z) (lx : location) :
  0 <= mx -> SFleb zero_sf (binary_round_aux 53 1024 false mx ex lx) = true.
Proof.
  intros H. rewrite binary_round_aux_finish. apply finish_nonneg.
  unfold shr_fexp.
  pose proof (shr_m_nonneg (shr_record_of_loc mx lx) ex
                (fexp 53 1024 (Zdigits2 mx + ex) - ex)) as Hn.
  rewrite shr_record_of_loc_m in Hn. specialize (Hn H).
  pose proof (round_nearest_even_bounds
                (shr_m (fst (shr (shr_record_of_loc mx lx) ex
                               (fexp 53 1024 (Zdigits2 mx + ex) - ex))))
                (loc_of_shr_record (fst (shr (shr_record_of_loc mx lx) ex
                               (fexp 53 1024 (Zdigits2 mx + ex) - ex))))) as Hr.
  lia.
Qed.

(** Rounding with a negative sign never gives a float above zero. *)
Lemma binary_round_aux_neg (mx ex : Z) (lx : location) :
  SFltb zero_sf (binary_round_aux 53 1024 true mx ex lx) = false.
Proof.
  unfold binary_round_aux.
  destruct (shr_fexp 53 1024 mx ex lx) as [mrs' e'].
  destruct (shr_fexp 53 1024 _ e' loc_Exact) as [mrs'' e''].
  destruct (shr_m mrs'') as [|q|q]; try reflexivity.
  destruct (e'' <=? 1024 - 53); reflexivity.
Qed.

Lemma shl_align_fst (m : positive) (e ez : Z) :
  ez <= e -> Zpos (fst (shl_align m e ez)) = Zpos m * 2 ^ (e - ez).
Proof.
  intros H. unfold shl_align.
  destruct (ez - e) as [|d|d] eqn:E; cbn [fst]; try lia.
  - replace (e - ez) with 0 by lia. lia.
  - fold (shift_pos d m). rewrite shift_pos_correct.
    replace (e - ez) with (Zpos d) by lia.
    change (2 ^ Zpos d) with (Z.pow_pos 2 d). lia.
Qed.

(** *** Adding and subtracting 0.1 *)

Lemma SFadd_tenth_nonneg (x : spec_float) :
  SFleb zero_sf x = true -> SFleb zero_sf (SF64add x tenth_sf) = true.
Proof.
  unfold SF64add. change prec with 53. change emax with 1024.
  destruct x as [s|s| |s m e]; unfold SFadd, tenth_sf.
  - intros _. reflexivity.
  - destruct s; intros H; [discriminate H|reflexivity].
  - intros H; discriminate H.
  - destruct s; intros H; [discriminate H|].
    cbn [cond_Zopp Z.add]. unfold binary_normalize, binary_round.
    destruct (shl_align _ _ _) as [mz ez]. apply binary_round_aux_nonneg. lia.
Qed.

Lemma pos_le_of_compare_cont (m c : positive) :
  match Pos.compare_cont Eq m c with Gt => false | _ => true end = true ->
  Zpos m <= Zpos c.
Proof.
  intros H. rewrite Pos.compare_cont_spec in H. cbn [Pos.switch_Eq] in H.
  destruct (Pos.compare_spec m c) as [E|E|E].
  - subst m. apply Z.le_refl.
  - apply Pos2Z.pos_le_pos, Pos.lt_le_incl, E.
  - discriminate H.
Qed.

Lemma finite_le_one_inv (m : positive) (e : Z) :
  SFleb (S754_finite false m e) one_sf = true ->
  e < -52 \/ (e = -52 /\ Zpos m <= 4503599627370496).
Proof.
  unfold SFleb, SFcompare, one_sf.
  destruct (Z.compare_spec e (-52)) as [E|E|E]; intros H.
  - right. split; [exact E|]. apply pos_le_of_compare_cont.
    destruct (Pos.compare_cont Eq m 4503599627370496); [reflexivity|reflexivity|discriminate H].
  - left. exact E.
  - discriminate H.
Qed.

Lemma SFsub_tenth_le_one (x : spec_float) :
  valid_binary x = true ->
  SFleb x one_sf = true ->
  SFltb zero_sf (SF64sub x tenth_sf) = true ->
  SFleb (SF64sub x tenth_sf) one_sf = true.
Proof.
  unfold SF64sub. change prec with 53. change emax with 1024.
  destruct x as [s|s| |s m e]; unfold SFsub, tenth_sf.
  - intros _ _ H. discriminate H.
  - destruct s; intros _ H1 H2; [discriminate H2|discriminate H1].
  - intros _ H; discriminate H.
  - intros Hv H1. destruct s.
    + cbn [cond_Zopp]. intros H2. exfalso. revert H2.
      set (a := fst (shl_align m e _)). set (b := fst (shl_align _ (-56) _)).
      replace (- Zpos a - Zpos b) with (Zneg (a + b)) by lia.
      unfold binary_normalize, binary_round.
      destruct (shl_align (a + b) _ _) as [mz ez].
      rewrite binary_round_aux_neg. discriminate.
    + cbn [cond_Zopp].
      assert (He : e <= -52 /\ Zpos m <= 2 ^ (- e)).
      { unfold valid_binary, bounded, canonical_mantissa in Hv.
        apply andb_prop in Hv as [Hc _]. apply Z.eqb_eq in Hc.
        rewrite fexp_eq in Hc.
        assert (Hm : Zpos m < 2 ^ 53).
        { destruct (digits2_pos_bounds m) as [_ Hu].
          apply Z.lt_le_trans with (1 := Hu). apply Z.pow_le_mono_r; lia. }
        destruct (finite_le_one_inv m e H1) as [E|[E Hle]].
        - split; [lia|].
          apply Z.lt_le_incl, Z.lt_le_trans with (1 := Hm).
          apply Z.pow_le_mono_r; lia.
        - subst e. split; [lia|]. exact Hle. }
      destruct He as [He Hm].
      set (ez := Z.min e (-56)).
      assert (Hez : ez <= e /\ ez <= -56) by (unfold ez; lia).
      pose proof (shl_align_fst m e ez (proj1 Hez)) as Ha.
      pose proof (shl_align_fst 7205759403792794%positive (-56) ez (proj2 Hez)) as Hb.
      set (a := fst (shl_align m e ez)) in *.
      set (b := fst (shl_align 7205759403792794%positive (-56) ez)) in *.
      destruct (Zpos a - Zpos b) as [|p|p] eqn:E; unfold binary_normalize.
      * intros H2; discriminate H2.
      * intros _. apply binary_round_le_one.
        assert (Hp : Zpos p < 2 ^ (- ez)).
        { apply Z.lt_le_trans with (Zpos a); [lia|].
          rewrite Ha. replace (- ez) with (- e + (e - ez)) by lia.
          rewrite Z.pow_add_r by lia.
          apply Z.mul_le_mono_nonneg_r; [apply Z.pow_nonneg; lia|exact Hm]. }
        pose proof (digits2_pos_le p (- ez) ltac:(lia) Hp). lia.
      * intros H2. exfalso. revert H2. unfold binary_round.
        destruct (shl_align p _ _) as [mz e1].
        rewrite binary_round_aux_neg. discriminate.
Qed.

End Rounding.

Section PrimitiveFloats.

Local Open Scope float_scope.

Lemma ltb_leb (x y : float) : (x <? y) = true -> (x <=? y) = true.
Proof.
  rewrite ltb_spec, leb_spec. unfold SFltb, SFleb.
  destruct (SFcompare (Prim2SF x) (Prim2SF y)) as [[| |]|];
    intros H; try reflexivity; discriminate H.
Qed.

Lemma add_tenth_nonneg (v : float) :
  (0 <=? v) = true -> (0 <=? v + 0.1) = true.
Proof.
  rewrite !leb_spec, add_spec.
  change (Prim2SF 0) with zero_sf. change (Prim2SF 0.1) with tenth_sf.
  apply SFadd_tenth_nonneg.
Qed.

Lemma sub_tenth_le_one (v : float) :
  (v <=? 1) = true -> (0 <? v - 0.1) = true -> (v - 0.1 <=? 1) = true.
Proof.
  rewrite !leb_spec, ltb_spec, sub_spec.
  change (Prim2SF 0) with zero_sf. change (Prim2SF 1) with one_sf.
  change (Prim2SF 0.1) with tenth_sf.
  apply SFsub_tenth_le_one, Prim2SF_valid.
Qed.

End PrimitiveFloats.

(** ** Volume *)

Lemma change_volume_in_unit (increase : bool) (m : machine) :
  in_unit (volume (self m)) ->
  in_unit (volume (self (snd (change_volume increase m)))).
Proof.
  intros [H0 H1]. rewrite change_volume_eq. cbn [snd self volume set_volume].
  destruct increase; unfold Py.min, Py.max.
  - destruct (volume (self m) + 0.1 <? 1.0)%float eqn:E.
    + split; [apply add_tenth_nonneg; exact H0 | apply ltb_leb; exact E].
    + split; reflexivity.
  - destruct (0.0 <? volume (self m) - 0.1)%float eqn:E.
    + split; [apply ltb_leb; exact E | apply sub_tenth_le_one; assumption].
    + split; reflexivity.
Qed.

(** * The claims *)

(** C1. With the clock injected: on a fresh player with a non-empty catalog,
    [play()] at 0, [pause()] at 5, [pause()] at 8 and [get_elapsed_time()] at
    10 returns exactly 7.  In every state the player reaches,
    [get_elapsed_time()] returns [elapsed_time] when [start_time] is unset and
    [elapsed_time + (now - start_time)] when it is set, and leaves the
    machine as it was. *)
Theorem C1_elapsed_time_accounting :
  (forall listing : list string,
      MusicLibrary._load_songs "music" listing <> [] ->
      let m := run [Play None 0 MixerOk; Pause 5; Pause 8] (start listing) in
      get_elapsed_time 10 m = (Return 7%float, m)) /\
  (forall (listing : list string) (cs : list command) (now : float),
      let m := run cs (start listing) in
      get_elapsed_time now m =
      (Return match start_time (self m) with
              | None => elapsed_time (self m)
              | Some t0 => (elapsed_time (self m) + (now - t0))%float
              end, m)).
Proof.
  split.
  - intros listing H.
    unfold start, __init__, MusicLibrary.init.
    destruct (MusicLibrary._load_songs "music" listing) as [|sg sgs];
      [exfalso; apply H; reflexivity|].
    vm_compute. reflexivity.
  - intros listing cs now m.
    assert (H : coherent (self m)) by apply run_coherent, start_coherent.
    destruct m as [[lib ci pl vol st el] mx out].
    unfold coherent in H; cbn in H.
    destruct st as [t0|]; [|reflexivity].
    destruct pl; [reflexivity|].
    assert (false = true) by (apply H; discriminate). discriminate.
Qed.

(** C1, at a concrete input. *)
Lemma C1_elapsed_time_accounting_witness :
  let m := run [Play None 0 MixerOk; Pause 5; Pause 8] (start ["a.mp3"%string]) in
  get_elapsed_time 10 m = (Return 7%float, m).
Proof.
  apply (proj1 C1_elapsed_time_accounting).
  vm_compute. discriminate.
Defined.

(** C2. In every state a player reaches from its construction by any
    sequence of [play], [pause], [stop], [next_song], [previous_song] and
    [change_volume] calls, with any clock readings and any mixer failures,
    and going on after a raised exception or not, [start_time] is set if and
    only if [playing] is true. *)
Theorem C2_start_time_set_iff_playing (listing : list string) (cs : list command) :
  let s := self (run cs (start listing)) in
  start_time s <> None <-> playing s = true.
Proof. apply run_coherent, start_coherent. Qed.

(** C3, as stated, fails: after [play()] and [stop()] the player is stopped,
    and [pause()] at time 3 does not leave [playing], [elapsed_time] and
    [start_time] as they were. *)
Lemma C3_pause_when_stopped_counterexample :
  let m := run [Play None 0 MixerOk; Stop] (start ["a.mp3"%string]) in
  let m' := snd (pause 3 m) in
  stopped (self m) /\
  ~ (playing (self m') = playing (self m) /\
     elapsed_time (self m') = elapsed_time (self m) /\
     start_time (self m') = start_time (self m)).
Proof.
  split.
  - repeat split.
  - intros [H _]. vm_compute in H. discriminate.
Qed.

(** C3, amended. [pause()] on a player that is not playing (stopped or
    paused: the code keeps one flag for both) resumes: it sends [unpause] to
    the mixer, sets [start_time] to the clock reading and [playing] to true,
    and leaves [elapsed_time], [current_index], [volume] and the library
    unchanged; it raises nothing. *)
Theorem C3_pause_when_not_playing_resumes (now : float) (m : machine) :
  playing (self m) = false ->
  pause now m =
  (Return tt,
   Machine (Build (library (self m)) (current_index (self m)) true
                  (volume (self m)) (Some now) (elapsed_time (self m)))
           (mixer m ++ [MUnpause]) (stdout m)).
Proof. intros H. rewrite (pause_not_playing_eq now m H). reflexivity. Qed.

(** C3, at a concrete input. *)
Lemma C3_pause_when_not_playing_resumes_witness :
  pause 3 (start []) =
  (Return tt,
   Machine (Build (MusicLibrary.init "music" []) 0 true 0.5 (Some 3%float) 0)
           [MUnpause] []).
Proof. apply (C3_pause_when_not_playing_resumes 3 (start [])). reflexivity. Defined.

(** C4 fails on the code: [play] never resets [elapsed_time].  After
    [play(0)] at 0 and [pause()] at 5, a successful [play(1)] at 8 sets
    [start_time] to 8 and [playing] to true but keeps [elapsed_time] at 5, so
    [get_elapsed_time()] at 8 returns 5. *)
Theorem C4_play_keeps_elapsed_time :
  let m := run [Play (Some 0%Z) 0 MixerOk; Pause 5] (start ["a.mp3"; "b.mp3"]%string) in
  let r := play (Some 1%Z) 8 MixerOk m in
  elapsed_time (self m) = 5%float /\
  fst r = Return tt /\
  current_index (self (snd r)) = 1%Z /\
  playing (self (snd r)) = true /\
  start_time (self (snd r)) = Some 8%float /\
  elapsed_time (self (snd r)) = 5%float /\
  fst (get_elapsed_time 8 (snd r)) = Return 5%float.
Proof. vm_compute. repeat split. Qed.

(** C5, as stated, fails: on an empty catalog [play(3)] raises nothing and
    changes [current_index]. *)
Lemma C5_play_on_empty_catalog_counterexample :
  let m := start [] in
  let r := play (Some 3%Z) 0 MixerOk m in
  songs_of m = [] /\
  ~ ((exists e, fst r = Raise e) /\ self (snd r) = self m).
Proof.
  split; [reflexivity|].
  intros [[e H] _]. vm_compute in H. discriminate.
Qed.

(** C5, amended. [play] on an empty catalog raises nothing, sends nothing to
    the mixer and prints nothing; without an index it leaves the machine as
    it was, and with an index it sets [current_index] to it and changes
    nothing else. *)
Theorem C5_play_on_empty_catalog (now : float) (dev : mixer_outcome) (m : machine) :
  songs_of m = [] ->
  play None now dev m = (Return tt, m) /\
  forall i : Z,
    play (Some i) now dev m =
    (Return tt,
     Machine (Build (library (self m)) i (playing (self m)) (volume (self m))
                    (start_time (self m)) (elapsed_time (self m)))
             (mixer m) (stdout m)).
Proof.
  intros H. split; [|intros i]; rewrite play_empty_eq by exact H.
  - destruct m as [s mx out]. reflexivity.
  - reflexivity.
Qed.

(** C5, at a concrete input. *)
Lemma C5_play_on_empty_catalog_witness :
  play None 0 MixerOk (start []) = (Return tt, start []) /\
  forall i : Z,
    play (Some i) 0 MixerOk (start []) =
    (Return tt,
     Machine (Build (MusicLibrary.init "music" []) i false 0.5 None 0) [] []).
Proof. apply (C5_play_on_empty_catalog 0 MixerOk (start [])). reflexivity. Defined.

(** C6. For a catalog of size N > 0 and an index within it: N calls of
    [next_song] (whatever the clock and the mixer answer) raise nothing and
    bring [current_index] back to where it started; [next_song] moves it to
    [(i + 1) mod N] and [previous_song] to [(i - 1) mod N]; and
    [previous_song] after [next_song], or [next_song] after [previous_song],
    restores it. *)
Theorem C6_wrap_around (m : machine) :
  songs_of m <> [] ->
  (0 <= current_index (self m) < catalog_size m)%Z ->
  (forall envs : list (float * mixer_outcome),
      Z.of_nat (List.length envs) = catalog_size m ->
      fst (seq (nexts envs) m) = Return tt /\
      current_index (self (snd (seq (nexts envs) m))) = current_index (self m)) /\
  (forall now dev,
      fst (next_song now dev m) = Return tt /\
      current_index (self (snd (next_song now dev m))) =
        ((current_index (self m) + 1) mod catalog_size m)%Z) /\
  (forall now dev,
      fst (previous_song now dev m) = Return tt /\
      current_index (self (snd (previous_song now dev m))) =
        ((current_index (self m) - 1) mod catalog_size m)%Z) /\
  (forall now dev now' dev',
      current_index (self (snd (previous_song now' dev' (snd (next_song now dev m))))) =
        current_index (self m)) /\
  (forall now dev now' dev',
      current_index (self (snd (next_song now' dev' (snd (previous_song now dev m))))) =
        current_index (self m)).
Proof.
  intros Hne Hin.
  assert (Hpos := catalog_size_pos m Hne).
  repeat apply conj.
  - intros envs Hlen.
    destruct (seq_nexts envs m Hne Hin) as [Hr Hi]. split; [exact Hr|].
    rewrite Hi, Hlen.
    rewrite <- (Z.mul_1_l (catalog_size m)) at 1.
    rewrite Z.mod_add by lia. apply Z.mod_small, Hin.
  - intros now dev. destruct (next_song_step now dev m Hne) as (Hr & Hi & _). auto.
  - intros now dev. destruct (previous_song_step now dev m Hne) as (Hr & Hi & _). auto.
  - intros now dev now' dev'.
    destruct (next_song_step now dev m Hne) as (_ & Hi & Hl).
    set (m1 := snd (next_song now dev m)) in *.
    assert (Hsongs : songs_of m1 = songs_of m) by (unfold songs_of; rewrite Hl; reflexivity).
    assert (Hsize : catalog_size m1 = catalog_size m) by (unfold catalog_size; rewrite Hsongs; reflexivity).
    destruct (previous_song_step now' dev' m1) as (_ & Hi' & _).
    + rewrite Hsongs. exact Hne.
    + rewrite Hi', Hi, Hsize.
      rewrite Zminus_mod_idemp_l.
      replace (current_index (self m) + 1 - 1)%Z with (current_index (self m)) by lia.
      apply Z.mod_small, Hin.
  - intros now dev now' dev'.
    destruct (previous_song_step now dev m Hne) as (_ & Hi & Hl).
    set (m1 := snd (previous_song now dev m)) in *.
    assert (Hsongs : songs_of m1 = songs_of m) by (unfold songs_of; rewrite Hl; reflexivity).
    assert (Hsize : catalog_size m1 = catalog_size m) by (unfold catalog_size; rewrite Hsongs; reflexivity).
    destruct (next_song_step now' dev' m1) as (_ & Hi' & _).
    + rewrite Hsongs. exact Hne.
    + rewrite Hi', Hi, Hsize.
      rewrite Zplus_mod_idemp_l.
      replace (current_index (self m) - 1 + 1)%Z with (current_index (self m)) by lia.
      apply Z.mod_small, Hin.
Qed.

(** C6, at a concrete input. *)
Lemma C6_wrap_around_witness :
  let m := start ["a.mp3"; "b.mp3"; "c.mp3"]%string in
  let envs := [(1%float, MixerOk); (2%float, MixerError AtLoad "bad file");
               (3%float, MixerOk)] in
  fst (seq (nexts envs) m) = Return tt /\
  current_index (self (snd (seq (nexts envs) m))) = current_index (self m).
Proof.
  refine (proj1 (C6_wrap_around (start ["a.mp3"; "b.mp3"; "c.mp3"]%string) _ _) _ _).
  - vm_compute. discriminate.
  - vm_compute. split; [discriminate|reflexivity].
  - reflexivity.
Defined.

(** C7 fails on the code: on an empty catalog [next_song] and
    [previous_song] first [stop()] and then raise [ZeroDivisionError]. *)
Theorem C7_navigation_on_empty_catalog_raises
    (now : float) (dev : mixer_outcome) (m : machine) :
  songs_of m = [] ->
  next_song now dev m =
  (Raise Py.ZeroDivisionError,
   Machine (Build (library (self m)) (current_index (self m)) false
                  (volume (self m)) None 0)
           (mixer m ++ [MStop]) (stdout m)) /\
  previous_song now dev m =
  (Raise Py.ZeroDivisionError,
   Machine (Build (library (self m)) (current_index (self m)) false
                  (volume (self m)) None 0)
           (mixer m ++ [MStop]) (stdout m)).
Proof.
  intros H.
  rewrite next_song_empty_eq, previous_song_empty_eq by exact H.
  split; reflexivity.
Qed.

(** C7, at a concrete input. *)
Lemma C7_navigation_on_empty_catalog_raises_witness :
  next_song 0 MixerOk (start []) =
  (Raise Py.ZeroDivisionError,
   Machine (Build (MusicLibrary.init "music" []) 0 false 0.5 None 0) [MStop] []) /\
  previous_song 0 MixerOk (start []) =
  (Raise Py.ZeroDivisionError,
   Machine (Build (MusicLibrary.init "music" []) 0 false 0.5 None 0) [MStop] []).
Proof.
  apply (C7_navigation_on_empty_catalog_raises 0 MixerOk (start [])). reflexivity.
Defined.

(** C8, as stated, fails: a player that is playing track 0 and whose
    [play(1)] fails at the mixer's [load] is still flagged as playing. *)
Lemma C8_play_device_failure_counterexample :
  let m := run [Play (Some 0%Z) 0 MixerOk] (start ["a.mp3"; "b.mp3"]%string) in
  let r := play (Some 1%Z) 5 (MixerError AtLoad "bad file") m in
  current_index (self (snd r)) = 1%Z /\
  ~ (playing (self (snd r)) = false).
Proof. split; [reflexivity|]. vm_compute. discriminate. Qed.

(** C8, amended. When the catalog holds the requested track and the mixer
    raises [pygame.error] in [play]'s [try] block, [play] raises nothing,
    prints the error message, selects the requested track ([current_index]
    is the index given, or stays when none is given) and leaves [playing],
    [start_time], [elapsed_time], [volume] and the library as they were: a
    player that was playing stays flagged as playing. *)
Theorem C8_play_device_failure
    (index : option Z) (now : float) (stage : mixer_stage) (msg : string)
    (m : machine) (song : Song.t) :
  Py.getitem (songs_of m)
    (match index with Some i => i | None => current_index (self m) end) = inr song ->
  let r := play index now (MixerError stage msg) m in
  fst r = Return tt /\
  current_index (self (snd r)) =
    match index with Some i => i | None => current_index (self m) end /\
  playing (self (snd r)) = playing (self m) /\
  start_time (self (snd r)) = start_time (self m) /\
  elapsed_time (self (snd r)) = elapsed_time (self m) /\
  volume (self (snd r)) = volume (self m) /\
  library (self (snd r)) = library (self m) /\
  stdout (snd r) = stdout m ++ [("Erro ao carregar a música: " ++ msg)%string].
Proof.
  intros H r. subst r.
  rewrite (play_error_eq now m index song stage msg).
  - destruct index; repeat split.
  - destruct index; exact H.
Qed.

(** C8, at a concrete input. *)
Lemma C8_play_device_failure_witness :
  let m := run [Play (Some 0%Z) 0 MixerOk] (start ["a.mp3"; "b.mp3"]%string) in
  let r := play (Some 1%Z) 5 (MixerError AtLoad "bad file") m in
  fst r = Return tt /\
  current_index (self (snd r)) = 1%Z /\
  playing (self (snd r)) = playing (self m) /\
  start_time (self (snd r)) = start_time (self m) /\
  elapsed_time (self (snd r)) = elapsed_time (self m) /\
  volume (self (snd r)) = volume (self m) /\
  library (self (snd r)) = library (self m) /\
  stdout (snd r) = stdout m ++ ["Erro ao carregar a música: bad file"%string].
Proof.
  exact (C8_play_device_failure (Some 1%Z) 5 AtLoad "bad file"
           (run [Play (Some 0%Z) 0 MixerOk] (start ["a.mp3"; "b.mp3"]%string))
           (Song.init "b.mp3" "music/b.mp3") eq_refl).
Defined.

(** C9. [change_volume] always returns normally, whatever the transport
    state: it replaces [volume] by [min(1.0, volume + 0.1)] (increase) or
    [max(0.0, volume - 0.1)] (decrease), the sum and the difference being
    those of binary64 floats, sends the new volume to the mixer and changes
    nothing else.  From 0.95 an increase gives exactly 1.0 and from 0.05 a
    decrease gives exactly 0.0; below the clamp the step is the float sum or
    difference with 0.1; and a volume within [0.0, 1.0] stays within
    [0.0, 1.0]. *)
Theorem C9_volume_clamping :
  (forall (increase : bool) (m : machine),
      let v := if increase then Py.min 1.0 (volume (self m) + 0.1)%float
               else Py.max 0.0 (volume (self m) - 0.1)%float in
      change_volume increase m =
      (Return tt,
       Machine (Build (library (self m)) (current_index (self m)) (playing (self m))
                      v (start_time (self m)) (elapsed_time (self m)))
               (mixer m ++ [MSetVolume v]) (stdout m))) /\
  (forall (s : t) (mx : list mixer_call) (out : list string),
      volume (self (snd (change_volume true (Machine (set_volume 0.95 s) mx out))))
      = 1.0%float) /\
  (forall (s : t) (mx : list mixer_call) (out : list string),
      volume (self (snd (change_volume false (Machine (set_volume 0.05 s) mx out))))
      = 0.0%float) /\
  (forall m : machine,
      (volume (self m) + 0.1 <? 1.0)%float = true ->
      volume (self (snd (change_volume true m))) = (volume (self m) + 0.1)%float) /\
  (forall m : machine,
      (0.0 <? volume (self m) - 0.1)%float = true ->
      volume (self (snd (change_volume false m))) = (volume (self m) - 0.1)%float) /\
  (forall (increase : bool) (m : machine),
      in_unit (volume (self m)) ->
      in_unit (volume (self (snd (change_volume increase m))))).
Proof.
  repeat apply conj.
  - intros increase m. exact (change_volume_eq increase m).
  - intros s mx out. vm_compute. reflexivity.
  - intros s mx out. vm_compute. reflexivity.
  - intros m H. rewrite change_volume_eq. cbn [snd self volume set_volume].
    unfold Py.min. rewrite H. reflexivity.
  - intros m H. rewrite change_volume_eq. cbn [snd self volume set_volume].
    unfold Py.max. rewrite H. reflexivity.
  - exact change_volume_in_unit.
Qed.

(** C9, at a concrete input. *)
Lemma C9_volume_clamping_witness :
  in_unit (volume (self (snd (change_volume true (start []))))) /\
  in_unit (volume (self (snd (change_volume false (start []))))).
Proof.
  destruct C9_volume_clamping as (_ & _ & _ & _ & _ & H).
  split; apply H; split; reflexivity.
Defined.

(** C10. A freshly constructed player has volume 0.5, is not playing, has
    [current_index] 0 and [elapsed_time] 0, and has no [start_time];
    nothing was sent to the mixer or printed. *)
Theorem C10_initial_state (listing : list string) :
  let s := __init__ listing in
  volume s = 0.5%float /\
  playing s = false /\
  current_index s = 0%Z /\
  elapsed_time s = 0%float /\
  start_time s = None /\
  library s = MusicLibrary.init "music" listing /\
  start listing = Machine s [] [].
Proof. repeat split. Qed.

(** * Further properties *)

(** ** The catalog *)

(** X1. [_load_songs] keeps exactly the entries of the directory listing
    whose name ends with [.mp3] (case-sensitively), in the listing's order,
    one song per entry, each with the path [os.path.join(music_dir, name)]. *)
Theorem X1_load_songs_keeps_the_mp3_entries (music_dir : string) (listing : list string) :
  map Song.name (MusicLibrary._load_songs music_dir listing)
  = filter (fun file => Py.endswith file ".mp3") listing /\
  Forall (fun s => Song.path s = Py.path_join music_dir (Song.name s))
         (MusicLibrary._load_songs music_dir listing).
Proof.
  induction listing as [|file rest [IHn IHp]]; cbn [MusicLibrary._load_songs filter map].
  - split; constructor.
  - destruct (Py.endswith file ".mp3"); cbn [map Song.name].
    + split; [f_equal; exact IHn|constructor; [reflexivity|exact IHp]].
    + split; assumption.
Qed.

(** ** Transport *)

(** X2. [stop()] is idempotent on the player object: from any state it
    returns normally and leaves the player not playing, with no
    [start_time] and [elapsed_time] 0, index, volume and library kept; a
    second [stop()] leaves the same object, and [get_elapsed_time()] then
    returns 0 whatever the clock reads. *)
Theorem X2_stop_is_idempotent (m : machine) (now : float) :
  let m1 := snd (stop m) in
  let m2 := snd (stop m1) in
  fst (stop m) = Return tt /\
  self m1 = Build (library (self m)) (current_index (self m)) false
                  (volume (self m)) None 0 /\
  fst (stop m1) = Return tt /\
  self m2 = self m1 /\
  get_elapsed_time now m1 = (Return 0%float, m1).
Proof. repeat split. Qed.

(** X3. Paused time is not counted.  For a playing player whose interval
    started at [t0]: after [pause()] at [t1], [get_elapsed_time()] returns
    [elapsed_time + (t1 - t0)] whatever the clock reads; after a second
    [pause()] (resume) at [t2], a query at [t3] returns that amount plus
    [t3 - t2].  Both calls return normally. *)
Theorem X3_paused_time_is_not_counted (m : machine) (t0 t1 t2 t3 : float) :
  playing (self m) = true ->
  start_time (self m) = Some t0 ->
  let m1 := snd (pause t1 m) in
  let m2 := snd (pause t2 m1) in
  fst (pause t1 m) = Return tt /\
  fst (pause t2 m1) = Return tt /\
  (forall t : float,
      get_elapsed_time t m1 = (Return (elapsed_time (self m) + (t1 - t0))%float, m1)) /\
  get_elapsed_time t3 m2
  = (Return ((elapsed_time (self m) + (t1 - t0)) + (t3 - t2))%float, m2).
Proof.
  intros P S. cbv zeta.
  rewrite (pause_playing_eq t1 m t0 P S). cbn [fst snd].
  rewrite pause_not_playing_eq by reflexivity.
  repeat split.
Qed.

(** X3, at a concrete input. *)
Lemma X3_paused_time_is_not_counted_witness :
  let m := snd (play None 0 MixerOk (start ["a.mp3"%string])) in
  let m1 := snd (pause 5 m) in
  let m2 := snd (pause 8 m1) in
  fst (pause 5 m) = Return tt /\
  fst (pause 8 m1) = Return tt /\
  (forall t : float,
      get_elapsed_time t m1 = (Return (elapsed_time (self m) + (5 - 0))%float, m1)) /\
  get_elapsed_time 10 m2
  = (Return ((elapsed_time (self m) + (5 - 0)) + (10 - 8))%float, m2).
Proof.
  exact (X3_paused_time_is_not_counted
           (snd (play None 0 MixerOk (start ["a.mp3"%string]))) 0 5 8 10
           eq_refl eq_refl).
Defined.

Lemma play_None_outcome (now : float) (dev : mixer_outcome) (m : machine) :
  (0 <= current_index (self m) < catalog_size m)%Z ->
  self (snd (play None now dev m))
  = match dev with
    | MixerOk => set_playing true (set_start_time (Some now) (self m))
    | MixerError _ _ => self m
    end.
Proof.
  intros H.
  destruct (getitem_in_range (songs_of m) (current_index (self m)) H) as [song G].
  destruct dev as [|stage msg].
  - rewrite (play_ok_eq now m None song G). reflexivity.
  - rewrite (play_error_eq now m None song stage msg G). reflexivity.
Qed.

(** X4. Switching tracks resets the elapsed time.  On a non-empty catalog,
    whatever the index was, [next_song()] and [previous_song()] return
    normally with [elapsed_time] 0 and the index moved modulo the catalog
    size; the player is playing from [now] when the mixer accepted the
    track, and stopped (not playing, no [start_time]) when it raised
    [pygame.error]. *)
Theorem X4_track_switch_resets_elapsed_time
    (now : float) (dev : mixer_outcome) (m : machine) :
  songs_of m <> [] ->
  let started := match dev with MixerOk => true | MixerError _ _ => false end in
  let after (r : result unit * machine) (i : Z) :=
    fst r = Return tt /\
    current_index (self (snd r)) = i /\
    elapsed_time (self (snd r)) = 0%float /\
    playing (self (snd r)) = started /\
    start_time (self (snd r)) = (if started then Some now else None) /\
    volume (self (snd r)) = volume (self m) in
  after (next_song now dev m) ((current_index (self m) + 1) mod catalog_size m)%Z /\
  after (previous_song now dev m) ((current_index (self m) - 1) mod catalog_size m)%Z.
Proof.
  intros Hne. cbv zeta.
  assert (Hpos := catalog_size_pos m Hne).
  split.
  - destruct (next_song_step now dev m Hne) as (Hr & Hi & _).
    split; [exact Hr|]. split; [exact Hi|].
    rewrite next_song_eq by exact Hne.
    rewrite play_None_outcome
      by (cbn [self current_index set_current_index]; apply Z.mod_pos_bound, Hpos).
    destruct dev; repeat split.
  - destruct (previous_song_step now dev m Hne) as (Hr & Hi & _).
    split; [exact Hr|]. split; [exact Hi|].
    rewrite previous_song_eq by exact Hne.
    rewrite play_None_outcome
      by (cbn [self current_index set_current_index]; apply Z.mod_pos_bound, Hpos).
    destruct dev; repeat split.
Qed.

(** X4, at a concrete input. *)
Lemma X4_track_switch_resets_elapsed_time_witness :
  let m := run [Play None 0 MixerOk; Pause 5] (start ["a.mp3"; "b.mp3"]%string) in
  elapsed_time (self m) = 5%float /\
  elapsed_time (self (snd (next_song 8 MixerOk m))) = 0%float /\
  current_index (self (snd (next_song 8 MixerOk m))) = 1%Z.
Proof.
  split; [vm_compute; reflexivity|].
  pose proof (X4_track_switch_resets_elapsed_time 8 MixerOk
                (run [Play None 0 MixerOk; Pause 5] (start ["a.mp3"; "b.mp3"]%string)))
    as H.
  destruct H as [(_ & Hi & He & _) _].
  - vm_compute. discriminate.
  - split; [exact He|exact Hi].
Defined.

(** ** Indices *)

Lemma getitem_out_of_range {A : Type} (l : list A) (i : Z) :
  (i < - Z.of_nat (List.length l) \/ Z.of_nat (List.length l) <= i)%Z ->
  Py.getitem l i = inl Py.IndexError.
Proof.
  intros H. unfold Py.getitem.
  destruct (i <? 0)%Z eqn:E; [apply Z.ltb_lt in E|apply Z.ltb_ge in E].
  - replace (0 <=? Z.of_nat (List.length l) + i)%Z with false
      by (symmetry; apply Z.leb_gt; lia). reflexivity.
  - replace (i <? Z.of_nat (List.length l))%Z with false
      by (symmetry; apply Z.ltb_ge; lia).
    rewrite andb_false_r. reflexivity.
Qed.

Lemma getitem_negative {A : Type} (l : list A) (i : Z) :
  (- Z.of_nat (List.length l) <= i < 0)%Z ->
  Py.getitem l i = Py.getitem l (Z.of_nat (List.length l) + i).
Proof.
  intros H. unfold Py.getitem.
  replace (i <? 0)%Z with true by (symmetry; apply Z.ltb_lt; lia).
  replace (Z.of_nat (List.length l) + i <? 0)%Z with false
    by (symmetry; apply Z.ltb_ge; lia).
  reflexivity.
Qed.

Lemma getitem_raises {A : Type} (l : list A) (i : Z) (e : Py.exn) :
  Py.getitem l i = inl e -> e = Py.IndexError.
Proof.
  unfold Py.getitem. destruct (_ && _)%bool; [|congruence].
  destruct (nth_error l _); congruence.
Qed.

(** X5. [play(i)] with an index outside [-N, N) on a non-empty catalog of
    size N raises [IndexError]: the index is stored in [current_index], and
    nothing is sent to the mixer, printed or changed in the transport
    state. *)
Theorem X5_play_out_of_range_raises_IndexError
    (i : Z) (now : float) (dev : mixer_outcome) (m : machine) :
  songs_of m <> [] ->
  (i < - catalog_size m \/ catalog_size m <= i)%Z ->
  play (Some i) now dev m =
  (Raise Py.IndexError,
   Machine (Build (library (self m)) i (playing (self m)) (volume (self m))
                  (start_time (self m)) (elapsed_time (self m)))
           (mixer m) (stdout m)).
Proof.
  intros Hne Hi.
  rewrite (play_index_error_eq now m (Some i) dev Py.IndexError Hne).
  - reflexivity.
  - apply getitem_out_of_range. exact Hi.
Qed.

(** X5, at a concrete input. *)
Lemma X5_play_out_of_range_raises_IndexError_witness :
  play (Some 2%Z) 0 MixerOk (start ["a.mp3"; "b.mp3"]%string) =
  (Raise Py.IndexError,
   Machine (Build (MusicLibrary.init "music" ["a.mp3"; "b.mp3"]%string) 2 false 0.5 None 0)
           [] []).
Proof.
  apply (X5_play_out_of_range_raises_IndexError 2 0 MixerOk
           (start ["a.mp3"; "b.mp3"]%string)).
  - vm_compute. discriminate.
  - right. vm_compute. discriminate.
Defined.

(** X6. A negative index counts from the end.  For [-N <= i < 0] on a
    catalog of size N, [play(i)] returns normally and sends the mixer what
    [play(N + i)] sends, with the same transport state, but stores [i]
    itself in [current_index]. *)
Theorem X6_play_negative_index_counts_from_the_end
    (i : Z) (now : float) (dev : mixer_outcome) (m : machine) :
  (- catalog_size m <= i < 0)%Z ->
  let r := play (Some i) now dev m in
  let r' := play (Some (catalog_size m + i)%Z) now dev m in
  fst r = Return tt /\ fst r' = Return tt /\
  mixer (snd r) = mixer (snd r') /\
  stdout (snd r) = stdout (snd r') /\
  playing (self (snd r)) = playing (self (snd r')) /\
  start_time (self (snd r)) = start_time (self (snd r')) /\
  elapsed_time (self (snd r)) = elapsed_time (self (snd r')) /\
  current_index (self (snd r)) = i /\
  current_index (self (snd r')) = (catalog_size m + i)%Z.
Proof.
  intros Hi. cbv zeta.
  destruct (getitem_in_range (songs_of m) (catalog_size m + i)) as [song G];
    [unfold catalog_size in *; lia|].
  assert (G' : Py.getitem (songs_of m) i = inr song)
    by (rewrite getitem_negative by exact Hi; exact G).
  destruct dev as [|stage msg].
  - rewrite (play_ok_eq now m (Some i) song G').
    rewrite (play_ok_eq now m (Some (catalog_size m + i)%Z) song G).
    repeat split.
  - rewrite (play_error_eq now m (Some i) song stage msg G').
    rewrite (play_error_eq now m (Some (catalog_size m + i)%Z) song stage msg G).
    repeat split.
Qed.

(** X6, at a concrete input. *)
Lemma X6_play_negative_index_counts_from_the_end_witness :
  let m := start ["a.mp3"; "b.mp3"]%string in
  mixer (snd (play (Some (-1)%Z) 0 MixerOk m))
  = mixer (snd (play (Some (catalog_size m + -1)%Z) 0 MixerOk m)) /\
  current_index (self (snd (play (Some (-1)%Z) 0 MixerOk m))) = (-1)%Z.
Proof.
  pose proof (X6_play_negative_index_counts_from_the_end (-1) 0 MixerOk
                (start ["a.mp3"; "b.mp3"]%string)) as H.
  destruct H as (_ & _ & Hm & _ & _ & _ & _ & Hi & _).
  - vm_compute. split; [discriminate|reflexivity].
  - split; [exact Hm|exact Hi].
Defined.

(** ** What every run keeps *)

Lemma play_frame (index : option Z) (now : float) (dev : mixer_outcome) (m : machine) :
  library (self (snd (play index now dev m))) = library (self m) /\
  volume (self (snd (play index now dev m))) = volume (self m).
Proof.
  destruct (play_self index now dev m) as [E|E]; rewrite E;
    destruct index; split; reflexivity.
Qed.

Lemma exec_library (c : command) (m : machine) :
  library (self (snd (exec c m))) = library (self m).
Proof.
  destruct c as [index now dev | now | | now dev | now dev | increase]; cbn [exec].
  - apply play_frame.
  - destruct m as [[lib ci pl vol st el] mx out]. destruct pl, st; reflexivity.
  - reflexivity.
  - destruct (songs_of m) as [|sg sgs] eqn:E.
    + rewrite next_song_empty_eq by exact E. reflexivity.
    + rewrite next_song_eq by congruence.
      rewrite (proj1 (play_frame _ _ _ _)). reflexivity.
  - destruct (songs_of m) as [|sg sgs] eqn:E.
    + rewrite previous_song_empty_eq by exact E. reflexivity.
    + rewrite previous_song_eq by congruence.
      rewrite (proj1 (play_frame _ _ _ _)). reflexivity.
  - reflexivity.
Qed.

Lemma run_library (cs : list command) :
  forall m, library (self (run cs m)) = library (self m).
Proof.
  induction cs as [|c cs IH]; intros m; cbn [run]; [reflexivity|].
  rewrite IH. apply exec_library.
Qed.

(** The exceptions a method can raise on a coherent player. *)
Lemma exec_raises (c : command) (m : machine) (e : Py.exn) :
  coherent (self m) ->
  fst (exec c m) = Raise e ->
  (e = Py.ZeroDivisionError /\ songs_of m = [] /\
   exists now dev, c = Next now dev \/ c = Previous now dev) \/
  (e = Py.IndexError /\ exists index now dev, c = Play index now dev).
Proof.
  intros Hc.
  destruct c as [index now dev | now | | now dev | now dev | increase]; cbn [exec].
  - intros H. right. split; [|exists index, now, dev; reflexivity].
    destruct (songs_of m) as [|sg sgs] eqn:E.
    + rewrite play_empty_eq in H by exact E. discriminate H.
    + destruct (Py.getitem (songs_of m) (current_index (select index (self m))))
        as [e0|song] eqn:G.
      * rewrite (play_index_error_eq now m index dev e0) in H by congruence.
        cbn [fst] in H. injection H as <-. exact (getitem_raises _ _ _ G).
      * destruct dev as [|stage msg].
        -- rewrite (play_ok_eq now m index song G) in H. discriminate H.
        -- rewrite (play_error_eq now m index song stage msg G) in H. discriminate H.
  - intros H. exfalso. destruct (playing (self m)) eqn:P.
    + destruct (start_time (self m)) as [t0|] eqn:S.
      * rewrite (pause_playing_eq now m t0 P S) in H. discriminate H.
      * apply Hc in P. apply P, S.
    + rewrite (pause_not_playing_eq now m P) in H. discriminate H.
  - intros H. discriminate H.
  - intros H. destruct (songs_of m) as [|sg sgs] eqn:E.
    + rewrite next_song_empty_eq in H by exact E. cbn [fst] in H. injection H as <-.
      left. split; [reflexivity|]. split; [reflexivity|]. exists now, dev. left; reflexivity.
    + assert (Hne : songs_of m <> []) by congruence.
      destruct (next_song_step now dev m Hne) as (Hr & _). congruence.
  - intros H. destruct (songs_of m) as [|sg sgs] eqn:E.
    + rewrite previous_song_empty_eq in H by exact E. cbn [fst] in H. injection H as <-.
      left. split; [reflexivity|]. split; [reflexivity|]. exists now, dev. right; reflexivity.
    + assert (Hne : songs_of m <> []) by congruence.
      destruct (previous_song_step now dev m Hne) as (Hr & _). congruence.
  - intros H. discriminate H.
Qed.

(** X7. The exceptions that can leave a method.  On any state reached from
    construction, [pause], [stop] and [change_volume] never raise (the
    [TypeError] of [pause] on a missing [start_time] is unreachable) and no
    [pygame.error] escapes [play]; [ZeroDivisionError] leaves only
    [next_song] or [previous_song], and only when the catalog is empty;
    [IndexError] leaves only [play]. *)
Theorem X7_exceptions_that_leave_a_method
    (listing : list string) (cs : list command) (c : command) (e : Py.exn) :
  fst (exec c (run cs (start listing))) = Raise e ->
  (e = Py.ZeroDivisionError /\ MusicLibrary._load_songs "music" listing = [] /\
   exists now dev, c = Next now dev \/ c = Previous now dev) \/
  (e = Py.IndexError /\ exists index now dev, c = Play index now dev).
Proof.
  intros H.
  apply exec_raises in H; [|apply run_coherent, start_coherent].
  destruct H as [(He & Hs & Hc)|H]; [left|right; exact H].
  split; [exact He|]. split; [|exact Hc].
  unfold songs_of in Hs. rewrite run_library in Hs. exact Hs.
Qed.

(** X7, at a concrete input. *)
Lemma X7_exceptions_that_leave_a_method_witness :
  (Py.ZeroDivisionError = Py.ZeroDivisionError /\
   MusicLibrary._load_songs "music" [] = [] /\
   exists now dev, Next 0 MixerOk = Next now dev \/ Next 0 MixerOk = Previous now dev) \/
  (Py.ZeroDivisionError = Py.IndexError /\
   exists index now dev, Next 0 MixerOk = Play index now dev).
Proof.
  exact (X7_exceptions_that_leave_a_method [] [Stop] (Next 0 MixerOk)
           Py.ZeroDivisionError eq_refl).
Defined.

Lemma exec_volume (c : command) (m : machine) :
  in_unit (volume (self m)) -> in_unit (volume (self (snd (exec c m)))).
Proof.
  intros H.
  destruct c as [index now dev | now | | now dev | now dev | increase]; cbn [exec].
  - rewrite (proj2 (play_frame _ _ _ _)). exact H.
  - destruct m as [[lib ci pl vol st el] mx out]. destruct pl, st; exact H.
  - exact H.
  - destruct (songs_of m) as [|sg sgs] eqn:E.
    + rewrite next_song_empty_eq by exact E. exact H.
    + rewrite next_song_eq by congruence.
      rewrite (proj2 (play_frame _ _ _ _)). exact H.
  - destruct (songs_of m) as [|sg sgs] eqn:E.
    + rewrite previous_song_empty_eq by exact E. exact H.
    + rewrite previous_song_eq by congruence.
      rewrite (proj2 (play_frame _ _ _ _)). exact H.
  - apply change_volume_in_unit, H.
Qed.

Lemma run_volume (cs : list command) :
  forall m, in_unit (volume (self m)) -> in_unit (volume (self (run cs m))).
Proof.
  induction cs as [|c cs IH]; intros m H; cbn [run]; [exact H|].
  apply IH, exec_volume, H.
Qed.

(** X8. The volume stays within [0.0, 1.0] (by the comparisons of binary64
    floats) in every state reached from construction, whatever the calls,
    the clock and the mixer. *)
Theorem X8_volume_stays_in_unit (listing : list string) (cs : list command) :
  in_unit (volume (self (run cs (start listing)))).
Proof. apply run_volume. split; reflexivity. Qed.

Ltac volumes :=
  repeat first [apply Forall_nil | apply Forall_cons];
  try exact I; try assumption.

Lemma issued_volumes (dev : mixer_outcome) (song : Song.t) (v : float) :
  in_unit v -> volumes_in_unit (issued dev song v).
Proof.
  intros H. unfold volumes_in_unit.
  destruct dev as [|[| |] msg]; cbn [issued]; volumes.
Qed.

(** What [play] sends to the mixer, all with the player's volume. *)
Lemma play_mixer (index : option Z) (now : float) (dev : mixer_outcome) (m : machine) :
  in_unit (volume (self m)) -> volumes_in_unit (mixer m) ->
  volumes_in_unit (mixer (snd (play index now dev m))).
Proof.
  intros Hv Hm.
  destruct (songs_of m) as [|sg sgs] eqn:E.
  - rewrite play_empty_eq by exact E. exact Hm.
  - destruct (Py.getitem (songs_of m) (current_index (select index (self m))))
      as [e0|song] eqn:G.
    + rewrite (play_index_error_eq now m index dev e0) by congruence. exact Hm.
    + destruct dev as [|stage msg].
      * rewrite (play_ok_eq now m index song G). cbn [snd mixer].
        apply Forall_app. split; [exact Hm|]. apply issued_volumes, Hv.
      * rewrite (play_error_eq now m index song stage msg G). cbn [snd mixer].
        apply Forall_app. split; [exact Hm|]. apply issued_volumes, Hv.
Qed.

Lemma exec_mixer (c : command) (m : machine) :
  in_unit (volume (self m)) -> volumes_in_unit (mixer m) ->
  volumes_in_unit (mixer (snd (exec c m))).
Proof.
  intros Hv Hm.
  assert (Hstop : volumes_in_unit (mixer m ++ [MStop]))
    by (apply Forall_app; split; [exact Hm|volumes]).
  destruct c as [index now dev | now | | now dev | now dev | increase]; cbn [exec].
  - apply play_mixer; assumption.
  - destruct m as [[lib ci pl vol st el] mx out].
    destruct pl, st; cbn; apply Forall_app; split; try exact Hm; volumes.
  - exact Hstop.
  - destruct (songs_of m) as [|sg sgs] eqn:E.
    + rewrite next_song_empty_eq by exact E. exact Hstop.
    + rewrite next_song_eq by congruence. apply play_mixer; [exact Hv|exact Hstop].
  - destruct (songs_of m) as [|sg sgs] eqn:E.
    + rewrite previous_song_empty_eq by exact E. exact Hstop.
    + rewrite previous_song_eq by congruence. apply play_mixer; [exact Hv|exact Hstop].
  - rewrite change_volume_eq. cbn [snd mixer].
    apply Forall_app. split; [exact Hm|].
    pose proof (change_volume_in_unit increase m Hv) as H.
    rewrite change_volume_eq in H. volumes.
Qed.

Lemma run_mixer (cs : list command) :
  forall m, in_unit (volume (self m)) -> volumes_in_unit (mixer m) ->
            volumes_in_unit (mixer (run cs m)).
Proof.
  induction cs as [|c cs IH]; intros m Hv Hm; cbn [run]; [exact Hm|].
  apply IH; [apply exec_volume, Hv|apply exec_mixer; assumption].
Qed.

(** X9. The mixer is never given a volume outside [0.0, 1.0]: in every run
    from construction, each [set_volume] call in the mixer's log carries a
    volume within the range. *)
Theorem X9_mixer_volume_in_unit
    (listing : list string) (cs : list command) (v : float) :
  In (MSetVolume v) (mixer (run cs (start listing))) -> in_unit v.
Proof.
  intros H.
  assert (Hall : volumes_in_unit (mixer (run cs (start listing)))).
  { apply run_mixer; [split; reflexivity|constructor]. }
  unfold volumes_in_unit in Hall. rewrite Forall_forall in Hall.
  exact (Hall _ H).
Qed.

(** X9, at a concrete input. *)
Lemma X9_mixer_volume_in_unit_witness : in_unit 0.5%float.
Proof.
  apply (X9_mixer_volume_in_unit ["a.mp3"%string] [Play None 0 MixerOk] 0.5%float).
  vm_compute. right. left. reflexivity.
Defined.

(** ** [format_time] *)

Section FormatTime.

Local Open Scope Z_scope.

Lemma digit_inj (a b : Z) :
  0 <= a < 10 -> 0 <= b < 10 -> Time.digit a = Time.digit b -> a = b.
Proof.
  intros Ha Hb H. unfold Time.digit in H.
  apply (f_equal nat_of_ascii) in H.
  rewrite !nat_ascii_embedding in H by lia. lia.
Qed.

Lemma mmss_inj (c1 c2 c3 c4 d1 d2 d3 d4 : ascii) :
  (String c1 (String c2 EmptyString) ++ ":" ++ String c3 (String c4 EmptyString)
   = String d1 (String d2 EmptyString) ++ ":" ++ String d3 (String d4 EmptyString))%string ->
  c1 = d1 /\ c2 = d2 /\ c3 = d3 /\ c4 = d4.
Proof. cbn. intros H. injection H. auto. Qed.

Lemma digits_value (a b : Z) :
  0 <= a < 100 -> 0 <= b < 100 ->
  Time.digit (a / 10) = Time.digit (b / 10) ->
  Time.digit (a mod 10) = Time.digit (b mod 10) ->
  a = b.
Proof.
  intros Ha Hb H1 H2.
  apply digit_inj in H1; [|split; [apply Z.div_pos; lia|apply Z.div_lt_upper_bound; lia] ..].
  apply digit_inj in H2; [|apply Z.mod_pos_bound; lia ..].
  rewrite (Z.div_mod a 10), (Z.div_mod b 10) by lia. congruence.
Qed.

Lemma strftime_MS_inj (m1 s1 m2 s2 : Z) :
  0 <= m1 < 60 -> 0 <= s1 < 60 -> 0 <= m2 < 60 -> 0 <= s2 < 60 ->
  Time.strftime_MS {| Time.tm_min := m1; Time.tm_sec := s1 |}
  = Time.strftime_MS {| Time.tm_min := m2; Time.tm_sec := s2 |} ->
  m1 = m2 /\ s1 = s2.
Proof.
  intros Hm1 Hs1 Hm2 Hs2 H.
  unfold Time.strftime_MS, Time.two_digits in H. cbn [Time.tm_min Time.tm_sec] in H.
  apply mmss_inj in H. destruct H as (A & B & C & D).
  split; apply digits_value; try assumption; lia.
Qed.

Lemma inr_inj {A B : Type} (x y : B) : @inr A B x = inr y -> x = y.
Proof. intros H. injection H. auto. Qed.

Lemma format_time_eq (p : App.platform) (x : float) (n : Z) :
  PyFloat.floor x = inr n ->
  App.gmtime_refuses p n = None ->
  App.format_time p x
  = inr (Time.strftime_MS {| Time.tm_min := (n / 60) mod 60; Time.tm_sec := n mod 60 |}).
Proof.
  intros Hf Hr. unfold App.format_time, Time.gmtime. rewrite Hf, Hr. reflexivity.
Qed.



(** X11. Below one hour [format_time] loses nothing but the fraction: two
    times of less than 3600 whole seconds that are printed alike have the
    same whole seconds. *)
Theorem X11_format_time_is_injective_below_an_hour
    (p : App.platform) (x y : float) (n1 n2 : Z) :
  PyFloat.floor x = inr n1 ->
  PyFloat.floor y = inr n2 ->
  App.gmtime_refuses p n1 = None ->
  App.gmtime_refuses p n2 = None ->
  0 <= n1 < 3600 -> 0 <= n2 < 3600 ->
  App.format_time p x = App.format_time p y ->
  n1 = n2.
Proof.
  intros Hx Hy Rx Ry H1 H2 H.
  rewrite (format_time_eq p x n1 Hx Rx), (format_time_eq p y n2 Hy Ry) in H.
  apply inr_inj in H.
  assert (B1 : 0 <= n1 / 60 < 60)
    by (split; [apply Z.div_pos; lia|apply Z.div_lt_upper_bound; lia]).
  assert (B2 : 0 <= n2 / 60 < 60)
    by (split; [apply Z.div_pos; lia|apply Z.div_lt_upper_bound; lia]).
  rewrite (Z.mod_small (n1 / 60)), (Z.mod_small (n2 / 60)) in H by assumption.
  apply strftime_MS_inj in H; try assumption; try (apply Z.mod_pos_bound; lia).
  destruct H as [Hm Hs].
  rewrite (Z.div_mod n1 60), (Z.div_mod n2 60) by lia. congruence.
Qed.

(** X11, at a concrete input. *)
Lemma X11_format_time_is_injective_below_an_hour_witness : 125 = 125.
Proof.
  apply (X11_format_time_is_injective_below_an_hour App.linux 125 125.5 125 125);
    first [lia | vm_compute; reflexivity].
Defined.


End FormatTime.

(** ** [main] *)

Lemma get_elapsed_time_total (now : float) (m : machine) :
  exists x, get_elapsed_time now m = (Return x, m).
Proof.
  destruct m as [[lib ci pl vol st el] mx out].
  destruct st; eexists; reflexivity.
Qed.

Lemma draw_songs_player (songs : list Song.t) :
  forall (i index : Z) (a : App.app),
    App.player (App.draw_songs i index songs a) = App.player a.
Proof.
  induction songs as [|song rest IH]; intros i index a; cbn [App.draw_songs].
  - reflexivity.
  - rewrite IH. reflexivity.
Qed.

(** Drawing the frame leaves the player as it was, and what stops it is a
    conversion of a float, never the player. *)
Lemma render_player (p : App.platform) (index : Z) (t_now : float) (a : App.app) :
  App.player (snd (App.render p index t_now a)) = App.player a /\
  forall e, fst (App.render p index t_now a) = Some e ->
            exists ce, e = App.ConversionError ce.
Proof.
  unfold App.render. cbv zeta.
  set (a3 := App.draw_songs _ _ _ _).
  assert (H3 : App.player a3 = App.player a)
    by (unfold a3; rewrite draw_songs_player; reflexivity).
  destruct (get_elapsed_time_total t_now (App.player a3)) as [secs E].
  rewrite E, H3.
  destruct (App.format_time p secs) as [e1|elapsed].
  - split; [reflexivity|]. intros e H. injection H as <-. eexists; reflexivity.
  - cbn [App.player App.term].
    destruct (PyFloat.int _) as [e2|n].
    + split; [reflexivity|]. intros e H. injection H as <-. eexists; reflexivity.
    + split; [reflexivity|]. intros e H. discriminate H.
Qed.

Lemma play_Some_in_range (i : Z) (now : float) (dev : mixer_outcome) (m : machine) :
  (0 <= i < catalog_size m)%Z -> fst (play (Some i) now dev m) = Return tt.
Proof.
  intros H.
  destruct (getitem_in_range (songs_of m) i H) as [song G].
  destruct dev as [|stage msg].
  - rewrite (play_ok_eq now m (Some i) song G). reflexivity.
  - rewrite (play_error_eq now m (Some i) song stage msg G). reflexivity.
Qed.

Section MainLoop.

Variables (p : App.platform) (lib : MusicLibrary.t).

Lemma selecting_player (index : Z) (a a' : App.app) :
  App.player a' = App.player a -> selecting lib index a -> selecting lib index a'.
Proof. unfold selecting. intros ->. exact (fun H => H). Qed.

(** A method the loop calls on a selecting player returns normally and keeps
    it selecting; [play] is only called with the selection. *)
Lemma on_player_exec (index : Z) (a : App.app) (cmd : command) :
  selecting lib index a ->
  (forall idx now dev, cmd = Play idx now dev -> idx = Some index) ->
  exists a', App.on_player (exec cmd) a = (Return tt, a') /\ selecting lib index a'.
Proof.
  intros (Hl & Hne & Hi & Hc) Hplay.
  assert (Hsongs : songs_of (App.player a) = MusicLibrary.songs lib)
    by (unfold songs_of; rewrite Hl; reflexivity).
  unfold App.on_player.
  destruct (exec cmd (App.player a)) as [r pm] eqn:E.
  assert (El : library (self pm) = library (self (App.player a))).
  { pose proof (exec_library cmd (App.player a)) as H. rewrite E in H. exact H. }
  assert (Ec : coherent (self pm)).
  { pose proof (exec_coherent cmd (App.player a) Hc) as H. rewrite E in H. exact H. }
  destruct r as [[]|e].
  - eexists. split; [reflexivity|].
    unfold selecting. cbn [App.player]. rewrite El. auto.
  - exfalso.
    pose proof (exec_raises cmd (App.player a) e Hc) as Er.
    rewrite E in Er. specialize (Er eq_refl).
    destruct Er as [(_ & Hs & _)|(_ & idx & now & dev & Hcmd)].
    + apply Hne. rewrite <- Hsongs. exact Hs.
    + subst cmd. rewrite (Hplay idx now dev eq_refl) in E. cbn [exec] in E.
      pose proof (play_Some_in_range index now dev (App.player a)) as Hp.
      unfold catalog_size in Hp. rewrite Hsongs in Hp. specialize (Hp Hi).
      rewrite E in Hp. discriminate Hp.
Qed.

Lemma continue_exec (index : Z) (a : App.app) (cmd : command) :
  selecting lib index a ->
  (forall idx now dev, cmd = Play idx now dev -> idx = Some index) ->
  exists a', App.continue index (App.on_player (exec cmd) a) = App.Continue index a'
             /\ selecting lib index a'.
Proof.
  intros H Hplay.
  destruct (on_player_exec index a cmd H Hplay) as (a' & E & S).
  exists a'. rewrite E. split; [reflexivity|exact S].
Qed.

(** One turn of the key dispatch: the loop goes on selecting, or [q] has
    stopped the player. *)
Lemma dispatch_safe (t : App.tick) (index : Z) (a : App.app) :
  selecting lib index a ->
  match App.dispatch p t index a with
  | App.Continue i a' => selecting lib i a'
  | App.Done o => (exists a', o = App.Returned a') /\ safe lib o
  end.
Proof.
  intros H. pose proof H as (Hl & Hne & Hi & Hc).
  unfold App.dispatch. cbv zeta.
  destruct (App.key t =? PyFloat.ord "q")%Z.
  { cbn. split; [eexists; reflexivity|].
    split; [repeat split|]. eexists; reflexivity. }
  destruct ((App.key t =? App.KEY_UP p) && (0 <? index))%Z%bool eqn:Eup.
  { apply andb_prop in Eup as [_ E]. apply Z.ltb_lt in E.
    unfold selecting. repeat split; try assumption; try apply Hc; lia. }
  destruct ((App.key t =? App.KEY_DOWN p) && _)%Z%bool eqn:Edown.
  { apply andb_prop in Edown as [_ E]. apply Z.ltb_lt in E. rewrite Hl in E.
    unfold selecting. repeat split; try assumption; try apply Hc; lia. }
  destruct (App.key t =? PyFloat.ord "010")%Z.
  { destruct (continue_exec index a (Play (Some index) (App.now t) (App.dev t)) H)
      as (a' & E & S); [intros idx now dev [= <- _ _]; reflexivity|].
    cbn [exec] in E. rewrite E. exact S. }
  destruct (App.key t =? PyFloat.ord " ")%Z.
  { destruct (continue_exec index a (Pause (App.now t)) H)
      as (a' & E & S); [intros idx now dev [=]|].
    cbn [exec] in E. rewrite E. exact S. }
  destruct (App.key t =? PyFloat.ord "+")%Z.
  { destruct (continue_exec index a (ChangeVolume true) H)
      as (a' & E & S); [intros idx now dev [=]|].
    cbn [exec] in E. rewrite E. exact S. }
  destruct (App.key t =? PyFloat.ord "-")%Z.
  { destruct (continue_exec index a (ChangeVolume false) H)
      as (a' & E & S); [intros idx now dev [=]|].
    cbn [exec] in E. rewrite E. exact S. }
  destruct (App.key t =? App.KEY_RIGHT p)%Z.
  { destruct (continue_exec index a (Next (App.now t) (App.dev t)) H)
      as (a' & E & S); [intros idx now dev [=]|].
    cbn [exec] in E. rewrite E. exact S. }
  destruct (App.key t =? App.KEY_LEFT p)%Z.
  { destruct (continue_exec index a (Previous (App.now t) (App.dev t)) H)
      as (a' & E & S); [intros idx now dev [=]|].
    cbn [exec] in E. rewrite E. exact S. }
  exact H.
Qed.

Lemma loop_safe (ticks : list App.tick) :
  forall (index : Z) (a : App.app),
    selecting lib index a -> safe lib (App.loop p ticks index a).
Proof.
  induction ticks as [|t rest IH]; intros index a H; cbn [App.loop].
  - exact H.
  - destruct (render_player p index (App.render_now t) a) as [Hp Hcrash].
    destruct (App.render p index (App.render_now t) a) as [[e|] a1]; cbn [fst snd] in *.
    + destruct (Hcrash e eq_refl) as [ce ->]. exact I.
    + pose proof (dispatch_safe t index a1 (selecting_player index a a1 Hp H)) as D.
      destruct (App.dispatch p t index a1) as [i a2|o].
      * apply IH, D.
      * apply D.
Qed.

(** A [q] among the keys ends the loop. *)
Lemma loop_quits (ticks : list App.tick) :
  forall (index : Z) (a : App.app) (t : App.tick),
    In t ticks -> App.key t = PyFloat.ord "q" ->
    forall i a', App.loop p ticks index a <> App.Polling i a'.
Proof.
  induction ticks as [|t0 rest IH]; intros index a t Hin Hq i a'; [destruct Hin|].
  cbn [App.loop].
  destruct (App.render p index (App.render_now t0) a) as [[e|] a1]; [discriminate|].
  destruct (Z.eqb_spec (App.key t0) (PyFloat.ord "q")) as [E|E].
  - unfold App.dispatch. cbv zeta. rewrite E, Z.eqb_refl. cbn. discriminate.
  - destruct Hin as [->|Hin]; [contradiction|].
    destruct (App.dispatch p t0 index a1) as [i2 a2|o] eqn:D.
    + exact (IH i2 a2 t Hin Hq i a').
    + revert D. unfold App.dispatch. cbv zeta.
      apply Z.eqb_neq in E. rewrite E.
      repeat match goal with
             | |- context [if ?c then _ else _] => destruct c
             end;
        try discriminate;
        unfold App.continue, App.on_player;
        match goal with
        | |- context [let '(_, _) := ?c in _] => destruct c as [[[]|?] ?]
        end; intros [= <-]; discriminate.
Qed.

End MainLoop.

Lemma main_safe (p : App.platform) (listing : list string)
    (boot_now : float) (boot_dev : mixer_outcome) (ticks : list App.tick) :
  MusicLibrary._load_songs "music" listing <> [] ->
  safe (MusicLibrary.init "music" listing)
       (App.main p listing boot_now boot_dev ticks).
Proof.
  intros Hne. unfold App.main. cbv zeta.
  set (a0 := App.term (App.Timeout 100) _).
  assert (S0 : selecting (MusicLibrary.init "music" listing) 0 a0).
  { unfold selecting. split; [reflexivity|]. split; [exact Hne|].
    split; [|apply start_coherent].
    cbn [MusicLibrary.init MusicLibrary.songs].
    destruct (MusicLibrary._load_songs "music" listing); [congruence|].
    cbn [List.length]. lia. }
  cbn [App.player self start library __init__ MusicLibrary.init MusicLibrary.songs].
  destruct (MusicLibrary._load_songs "music" listing) as [|sg sgs] eqn:E;
    [congruence|].
  destruct (on_player_exec (MusicLibrary.init "music" listing) 0 a0
              (Play (Some 0%Z) boot_now boot_dev) S0) as (a' & Ea & S');
    [intros idx now dev [= <- _ _]; reflexivity|].
  cbn [exec] in Ea. rewrite Ea. apply loop_safe, S'.
Qed.

Lemma main_empty (p : App.platform) (listing : list string)
    (boot_now : float) (boot_dev : mixer_outcome) (ticks : list App.tick) :
  MusicLibrary._load_songs "music" listing = [] ->
  App.main p listing boot_now boot_dev ticks =
  App.Returned
    (App.Build_app (start listing)
       [App.Addstr 0 0
          "Nenhuma música encontrada! Adicione arquivos MP3 na pasta 'music'."
          App.A_NORMAL;
        App.Refresh; App.Sleep 3]).
Proof.
  intros H. unfold App.main. cbv zeta.
  cbn [App.player self start library __init__ MusicLibrary.init MusicLibrary.songs].
  rewrite H. reflexivity.
Qed.

(** X13. With no [.mp3] file in the directory [main] shows its message,
    waits three seconds and returns: the player is left as constructed and
    nothing is sent to the mixer, whatever keys are pressed. *)
Theorem X13_main_with_empty_catalog
    (p : App.platform) (listing : list string)
    (boot_now : float) (boot_dev : mixer_outcome) (ticks : list App.tick) :
  MusicLibrary._load_songs "music" listing = [] ->
  App.main p listing boot_now boot_dev ticks =
  App.Returned
    (App.Build_app (start listing)
       [App.Addstr 0 0
          "Nenhuma música encontrada! Adicione arquivos MP3 na pasta 'music'."
          App.A_NORMAL;
        App.Refresh; App.Sleep 3]) /\
  mixer (start listing) = [].
Proof.
  intros H. split; [|reflexivity]. apply main_empty, H.
Qed.

(** X13, at a concrete input. *)
Lemma X13_main_with_empty_catalog_witness :
  App.main App.linux ["notes.txt"%string] 0 MixerOk [App.Tick 1 10 2 MixerOk] =
  App.Returned
    (App.Build_app (start ["notes.txt"%string])
       [App.Addstr 0 0
          "Nenhuma música encontrada! Adicione arquivos MP3 na pasta 'music'."
          App.A_NORMAL;
        App.Refresh; App.Sleep 3]) /\
  mixer (start ["notes.txt"%string]) = [].
Proof.
  apply (X13_main_with_empty_catalog App.linux ["notes.txt"%string] 0 MixerOk
           [App.Tick 1 10 2 MixerOk]).
  reflexivity.
Defined.


(** X15. While [main] waits for a key on a non-empty catalog, the selection
    is an index of the catalog, the library is the one loaded at start, and
    [start_time] is set exactly when the player is playing: [Enter] always
    plays a track that exists. *)
Theorem X15_main_selection_stays_in_the_catalog
    (p : App.platform) (listing : list string)
    (boot_now : float) (boot_dev : mixer_outcome) (ticks : list App.tick)
    (index : Z) (a : App.app) :
  App.main p listing boot_now boot_dev ticks = App.Polling index a ->
  (0 <= index < Z.of_nat (List.length (MusicLibrary._load_songs "music" listing)))%Z /\
  library (self (App.player a)) = MusicLibrary.init "music" listing /\
  (start_time (self (App.player a)) <> None <-> playing (self (App.player a)) = true).
Proof.
  intros H.
  destruct (MusicLibrary._load_songs "music" listing) as [|sg sgs] eqn:E.
  - rewrite (main_empty p listing boot_now boot_dev ticks E) in H. discriminate H.
  - pose proof (main_safe p listing boot_now boot_dev ticks) as S.
    rewrite E in S. specialize (S ltac:(discriminate)).
    rewrite H in S. destruct S as (Hl & _ & Hi & Hc).
    cbn [MusicLibrary.init MusicLibrary.songs] in Hi. rewrite E in Hi.
    split; [exact Hi|]. split; [exact Hl|exact Hc].
Qed.

(** X15, at a concrete input: after [KEY_DOWN] on two tracks the selection
    is 1. *)
Lemma X15_main_selection_stays_in_the_catalog_witness : (0 <= 1 < 2)%Z.
Proof.
  refine (proj1 (X15_main_selection_stays_in_the_catalog App.linux
                   ["a.mp3"; "b.mp3"]%string 0 MixerOk
                   [App.Tick 1 258 2 MixerOk] 1 _ _)).
  vm_compute. reflexivity.
Defined.

(** X16. Nothing is left playing when [main] returns: the player is not
    playing, has no [start_time] and [elapsed_time] 0, and the mixer was
    either never used (empty catalog) or last told to stop. *)
Theorem X16_main_returns_stopped
    (p : App.platform) (listing : list string)
    (boot_now : float) (boot_dev : mixer_outcome) (ticks : list App.tick)
    (a : App.app) :
  App.main p listing boot_now boot_dev ticks = App.Returned a ->
  playing (self (App.player a)) = false /\
  start_time (self (App.player a)) = None /\
  elapsed_time (self (App.player a)) = 0%float /\
  (mixer (App.player a) = [] \/ exists log, mixer (App.player a) = log ++ [MStop]).
Proof.
  intros H.
  destruct (MusicLibrary._load_songs "music" listing) as [|sg sgs] eqn:E.
  - rewrite (main_empty p listing boot_now boot_dev ticks E) in H.
    injection H as <-. repeat split. left. reflexivity.
  - pose proof (main_safe p listing boot_now boot_dev ticks) as S.
    rewrite E in S. specialize (S ltac:(discriminate)).
    rewrite H in S. destruct S as ((Hp & Hs & He) & Hm).
    repeat split; try assumption. right. exact Hm.
Qed.

(** X16, at a concrete input: [q] pressed while the first track plays. *)
Lemma X16_main_returns_stopped_witness :
  exists a : App.app,
    App.main App.linux ["a.mp3"%string] 0 MixerOk [App.Tick 1 113 2 MixerOk]
    = App.Returned a /\
    playing (self (App.player a)) = false /\
    (mixer (App.player a) = [] \/ exists log, mixer (App.player a) = log ++ [MStop]).
Proof.
  eexists. split; [vm_compute; reflexivity|].
  match goal with
  | |- playing (self (App.player ?a)) = false /\ _ =>
      destruct (X16_main_returns_stopped App.linux ["a.mp3"%string] 0 MixerOk
                  [App.Tick 1 113 2 MixerOk] a) as (Hp & _ & _ & Hm)
  end.
  - vm_compute. reflexivity.
  - split; [exact Hp|exact Hm].
Defined.

(** X17. [q] always ends [main]: when one of the keys given to it is [q],
    [main] has returned or an exception has left it; it is not still
    waiting for a key. *)
Theorem X17_q_ends_main
    (p : App.platform) (listing : list string)
    (boot_now : float) (boot_dev : mixer_outcome) (ticks : list App.tick)
    (t : App.tick) (index : Z) (a : App.app) :
  In t ticks -> App.key t = PyFloat.ord "q" ->
  App.main p listing boot_now boot_dev ticks <> App.Polling index a.
Proof.
  intros Hin Hq. unfold App.main. cbv zeta.
  destruct (MusicLibrary.songs _); [discriminate|].
  destruct (App.on_player _ _) as [[[]|e] a']; [|discriminate].
  exact (loop_quits p ticks 0 a' t Hin Hq index a).
Qed.

(** X17, at a concrete input. *)
Lemma X17_q_ends_main_witness :
  App.main App.linux ["a.mp3"%string] 0 MixerOk
    [App.Tick 1 (-1) 2 MixerOk; App.Tick 3 113 4 MixerOk]
  <> App.Polling 0 (App.Build_app (start ["a.mp3"%string]) []).
Proof.
  apply (X17_q_ends_main App.linux ["a.mp3"%string] 0 MixerOk
           [App.Tick 1 (-1) 2 MixerOk; App.Tick 3 113 4 MixerOk]
           (App.Tick 3 113 4 MixerOk)).
  - right. left. reflexivity.
  - reflexivity.
Defined.

(** ** The frame *)



